(** * chemCPA preprocessing notebooks: SMILES integration and embedding batch

    A shallow embedding of the two notebooks of the repository:

    - the LINCS SMILES integration notebook (left merge of [adata.obs] with
      the reference table, the chain of boolean-mask filters, the
      identity-based train/test/ood split, the shrink-back of the test
      split into [split1], the per-row random split);
    - [preprocessing/7_compute_embeddings.ipynb] (the loop over the datasets
      with its try/except).

    The observation table is modelled the way pandas stores it: an index and
    a dictionary from column names to columns of cells. *)

From Stdlib Require Import QArith Qcanon Qround.
From stdpp Require Import gmap strings list fin_maps sorting.

(** ** The table operations the notebooks call *)

Module Pandas.

(** A cell of a column: a missing value ([np.nan]), a Python string, or a
    number.  Finite floats are rationals; [Qc] keeps them in lowest terms so
    that [-666.0 == -666] is plain equality. *)
Inductive cell : Type :=
  | NaN
  | Str (s : string)
  | Num (q : Qc).

#[global] Instance cell_eq_dec : EqDecision cell.
Proof. solve_decision. Defined.

Definition cell_to_sum (c : cell) : unit + (string + Qc) :=
  match c with
  | NaN => inl tt
  | Str s => inr (inl s)
  | Num q => inr (inr q)
  end.

Definition cell_of_sum (x : unit + (string + Qc)) : cell :=
  match x with
  | inl _ => NaN
  | inr (inl s) => Str s
  | inr (inr q) => Num q
  end.

#[global] Instance cell_countable : Countable cell.
Proof.
  apply (inj_countable' cell_to_sum cell_of_sum).
  by intros [].
Defined.

(** [pd.DataFrame]: the row labels and the columns by name.  [adata.obs] is
    such a frame; the expression matrix of the AnnData object is filtered
    along with it and is not looked at by any cell below. *)
Record DataFrame : Type := mkDataFrame {
  index : list string;
  columns : gmap string (list cell)
}.

(** [len(df)] *)
Definition n_rows (df : DataFrame) : nat := length (index df).

(** Every column is as long as the index. *)
Definition well_formed (df : DataFrame) : Prop :=
  ∀ name col, columns df !! name = Some col → length col = n_rows df.

(** [df[name]] / [df.name]: [None] stands for the [KeyError]. *)
Definition column (name : string) (df : DataFrame) : option (list cell) :=
  columns df !! name.

(** [name in list(df)] *)
Definition has_column (name : string) (df : DataFrame) : bool :=
  bool_decide (is_Some (columns df !! name)).

(** [series[mask]]: the entries at which the boolean mask is [True]. *)
Fixpoint mask_filter {A : Type} (mask : list bool) (l : list A) : list A :=
  match mask, l with
  | b :: mask', x :: l' =>
      if b then x :: mask_filter mask' l' else mask_filter mask' l'
  | _, _ => []
  end.

(** [df[mask]] (and [adata[mask]] on the observation table). *)
Definition select (mask : list bool) (df : DataFrame) : DataFrame :=
  {| index := mask_filter mask (index df);
     columns := mask_filter mask <$> columns df |}.

(** [~mask], [a & b], [a | b] *)
Definition mask_not (m : list bool) : list bool := negb <$> m.
Definition mask_and (a b : list bool) : list bool := zip_with andb a b.
Definition mask_or (a b : list bool) : list bool := zip_with orb a b.

(** [series.isin(values)] *)
Definition isin (col : list cell) (values : list cell) : list bool :=
  (λ c, bool_decide (c ∈ values)) <$> col.

(** [series.astype('str')]: a missing value becomes the string ['nan'].  The
    text Python prints for a float is left as a parameter. *)
Definition astype_str (float_str : Qc → string) (col : list cell) : list cell :=
  (λ c, match c with
        | NaN => Str "nan"
        | Str s => Str s
        | Num q => Str (float_str q)
        end) <$> col.

(** Number of entries of [col] equal to [v]. *)
Definition count_of (v : cell) (col : list cell) : nat :=
  length (filter (λ c, c = v) col).

(** [series.value_counts()]: missing values are dropped, every remaining
    distinct value is paired with its number of occurrences.  pandas orders
    the result by decreasing count; the notebook only compares the counts
    with a threshold and reads the index back, so the order is not kept.
    (On a categorical column pandas also lists the categories that do not
    occur, with count 0; no row carries them inside the counted group.) *)
Definition value_counts (col : list cell) : list (cell * nat) :=
  let present := filter (λ c, c ≠ NaN) col in
  (λ v, (v, count_of v present)) <$> remove_dups present.

(** [counts < threshold] *)
Definition lt_scalar (counts : list (cell * nat)) (threshold : nat)
  : list (cell * bool) :=
  (λ vc, (vc.1, bool_decide (vc.2 < threshold))) <$> counts.

(** [flags.index[flags]] and [flags.index[~flags]] *)
Definition index_where (flags : list (cell * bool)) : list cell :=
  fst <$> filter (λ vb, vb.2 = true) flags.
Definition index_where_not (flags : list (cell * bool)) : list cell :=
  fst <$> filter (λ vb, vb.2 = false) flags.

(** [df[name] = col] *)
Definition set_column (name : string) (col : list cell) (df : DataFrame)
  : DataFrame :=
  {| index := index df; columns := <[name := col]> (columns df) |}.

(** [df[name] = scalar] *)
Definition set_scalar (name : string) (v : cell) (df : DataFrame) : DataFrame :=
  set_column name (replicate (n_rows df) v) df.

(** The column after [df.loc[mask, name] = v]. *)
Definition mask_assign (mask : list bool) (v : cell) (col : list cell)
  : list cell :=
  zip_with (λ (b : bool) c, if b then v else c) mask col.

(** [df.loc[mask, name] = v].  Assigning through [.loc] into a column that
    does not exist creates it, missing everywhere else. *)
Definition loc_set (mask : list bool) (name : string) (v : cell)
    (df : DataFrame) : DataFrame :=
  let col := default (replicate (n_rows df) NaN) (column name df) in
  set_column name (mask_assign mask v col) df.

(** [df.loc[labels, name] = v]: the rows are chosen by their index label; a
    label that is no row label is a [KeyError]. *)
Definition loc_set_labels (labels : list string) (name : string) (v : cell)
    (df : DataFrame) : option DataFrame :=
  if bool_decide (Forall (λ l, l ∈ index df) labels)
  then Some (loc_set ((λ l, bool_decide (l ∈ labels)) <$> index df) name v df)
  else None.

(** [series[positions]]: the rows at the given positions, in that order. *)
Definition take_rows {A : Type} (positions : list nat) (l : list A) : list A :=
  omap (λ i, l !! i) positions.

(** The order [np.unique] sorts by.  Strings are compared as Python compares
    them; floats by value with the missing value last. *)
Definition cell_leb (x y : cell) : bool :=
  match x, y with
  | Str s, Str t => String.leb s t
  | Num p, Num q => Qle_bool p q
  | Num _, NaN => true
  | NaN, NaN => true
  | _, _ => false
  end.

Definition cell_le (x y : cell) : Prop := cell_leb x y.

#[global] Instance cell_le_dec : RelDecision cell_le.
Proof. intros x y. unfold cell_le. apply _. Defined.

Definition is_str (c : cell) : bool :=
  match c with Str _ => true | _ => false end.

(** [np.unique(series)]: the distinct values, sorted.  Sorting an object
    array that mixes strings and floats is a [TypeError]. *)
Definition np_unique (col : list cell) : option (list cell) :=
  if forallb is_str col || forallb (λ c, negb (is_str c)) col
  then Some (merge_sort cell_le (remove_dups col))
  else None.

(** ** [left.merge(right, how="left")]

    [right] is kept as the rows of its two columns, named [key] and [value].
    The call names no [on=], so pandas joins on every column the two frames
    share: on [key] when [left] has only that one, on both when [left] also
    has a [value] column, on [value] when [left] has only that one. *)

(** The entries of a column the frame may not have, one per row. *)
Definition entries (n : nat) (col : option (list cell)) : list (option cell) :=
  match col with
  | Some l => Some <$> l
  | None => replicate n None
  end.

(** The join key of every row of [left]: its entries in the shared columns
    ([None] for a column [left] does not have). *)
Definition join_keys (key value : string) (left : DataFrame)
  : list (option cell * option cell) :=
  zip (entries (n_rows left) (column key left))
      (entries (n_rows left) (column value left)).

(** A right value agrees with a left entry when the column is not shared or
    the two are equal (pandas pairs a missing key with a missing key). *)
Definition agrees (entry : option cell) (c : cell) : Prop :=
  match entry with
  | Some x => x = c
  | None => True
  end.

#[global] Instance agrees_dec entry c : Decision (agrees entry c).
Proof. destruct entry; simpl; apply _. Defined.

(** The rows of [right] that match a join key, in the order of [right]. *)
Definition matches (jk : option cell * option cell) (right : list (cell * cell))
  : list (cell * cell) :=
  filter (λ r, agrees jk.1 r.1 ∧ agrees jk.2 r.2) right.

(** The rows of the left merge: for every left row, in order, one output row
    per matching right row, or a single row with nothing from the right when
    no right row matches.  The result pairs the position of the left row
    with the right row. *)
Fixpoint merge_rows (pos : nat) (jks : list (option cell * option cell))
    (right : list (cell * cell)) : list (nat * option (cell * cell)) :=
  match jks with
  | [] => []
  | jk :: jks' =>
      match matches jk right with
      | [] => [(pos, None)]
      | ms => (λ r, (pos, Some r)) <$> ms
      end ++ merge_rows (S pos) jks' right
  end.

(** The column the merge takes from [right]: missing where no right row
    matched. *)
Definition from_right (f : cell * cell → cell)
    (rows : list (nat * option (cell * cell))) : list cell :=
  (λ row, from_option f NaN row.2) <$> rows.

(** A column of [right] goes into the result under its name unless [left]
    has a column of that name, which is a join column and keeps the left
    values. *)
Definition add_missing (name : string) (col : list cell)
    (cols : gmap string (list cell)) : gmap string (list cell) :=
  match cols !! name with
  | Some _ => cols
  | None => <[name := col]> cols
  end.

(** [left.reset_index().merge(right, how="left").set_index('index')].
    [None] is the [MergeError] of two frames without a common column. *)
Definition merge_left (key value : string) (left : DataFrame)
    (right : list (cell * cell)) : option DataFrame :=
  match column key left, column value left with
  | None, None => None
  | _, _ =>
      let rows := merge_rows 0 (join_keys key value left) right in
      Some {| index := take_rows rows.*1 (index left);
              columns :=
                add_missing key (from_right fst rows)
                  (add_missing value (from_right snd rows)
                     (take_rows rows.*1 <$> columns left)) |}
  end.

(** The value a left row receives when the join is on the key alone and the
    merge keeps one row for it: the value of the first right row with its
    key, or a missing value. *)
Definition joined_value (right : list (cell * cell)) (key : cell) : cell :=
  from_option snd NaN (head (matches (Some key, None) right)).

(** [df[cond]] for a Series [cond] that [Series.apply] has computed.  A
    Series of booleans selects rows.  On a frame without rows [apply] gives
    an empty Series of object dtype, which [df[...]] reads as a list of
    column names: the result has no column. *)
Definition getitem_applied (cond : list bool) (df : DataFrame) : DataFrame :=
  match cond with
  | [] => {| index := index df; columns := ∅ |}
  | _ => select cond df
  end.

End Pandas.

(** ** What the notebooks import and do not define *)

(** RDKit, scikit-learn and Python's float printing.  [MolFromSmiles] is
    called with [sanitize=False] and gives [None] on a string it cannot
    parse; [SanitizeMol] is [false] when it raises.  [train_test_split arr
    test_size random_state] is [None] when scikit-learn raises (a part would
    be empty), else the train part and the test part. *)
Class Libraries : Type := {
  float_str : Qc → string;
  Mol : Type;
  MolFromSmiles : string → option Mol;
  SanitizeMol : Mol → bool;
  train_test_split : ∀ A : Type, list A → Qc → Z → option (list A * list A)
}.

Arguments train_test_split {_ _} _ _ _.

(** scikit-learn shuffles the array and cuts it in two: nothing is lost,
    nothing is duplicated. *)
Definition split_is_partition `{Libraries} : Prop :=
  ∀ (A : Type) (arr : list A) test_size random_state train test,
    train_test_split arr test_size random_state = Some (train, test) →
    train ++ test ≡ₚ arr.

(** ** The LINCS SMILES integration notebook *)

Module Lincs.
Import Pandas.

Section Cells.
Context `{Libraries}.

(** [pert_id_unique = pd.Series(np.unique(adata.obs.pert_id))] *)
Definition pert_id_unique (adata : DataFrame) : option (list cell) :=
  pert_id ← column "pert_id" adata;
  np_unique pert_id.

(** [reference_df.loc[reference_df.pert_id.isin(pert_id_unique),
    ['pert_id', 'canonical_smiles']]]: the reference table is kept as its
    rows (pert_id, canonical_smiles). *)
Definition restrict_reference (pert_id_unique : list cell)
    (reference_df : list (cell * cell)) : list (cell * cell) :=
  filter (λ r, r.1 ∈ pert_id_unique) reference_df.

(** [adata.obs = adata.obs.reset_index().merge(reference_df, how="left")
    .set_index('index')].  [reference_df] has the columns [pert_id] and
    [canonical_smiles]; the join is on those of them that [adata.obs] has.
    AnnData refuses a frame whose length is not [n_obs]. *)
Definition cell_merge (reference_df : list (cell * cell)) (adata : DataFrame)
  : option DataFrame :=
  merged ← merge_left "pert_id" "canonical_smiles" adata reference_df;
  if bool_decide (n_rows merged = n_rows adata) then Some merged else None.

Definition sentinels : list cell := [Str "-666"; Str "restricted"; Str "nan"].

(** The cell that removes the invalid SMILES strings. *)
Definition cell_invalid_smiles (adata : DataFrame) : option DataFrame :=
  smiles ← column "canonical_smiles" adata;
  let adata := set_column "canonical_smiles" (astype_str float_str smiles) adata in
  smiles ← column "canonical_smiles" adata;
  let invalid_smiles := isin smiles sentinels in
  Some (select (mask_not invalid_smiles) adata).

Definition dose_sentinel : cell := Num (Q2Qc (-666)).

(** The cell that removes the invalid [pert_dose] value. *)
Definition cell_pert_dose (adata : DataFrame) : option DataFrame :=
  pert_dose ← column "pert_dose" adata;
  let cond := isin pert_dose [dose_sentinel] in
  Some (select (mask_not cond) adata).

Definition min_replicates : nat := 6.

(** The cell that removes the drugs without enough replicates. *)
Definition cell_replicates (adata : DataFrame) : option DataFrame :=
  smiles ← column "canonical_smiles" adata;
  let drugs_validation := lt_scalar (value_counts smiles) min_replicates in
  let valid_drugs := index_where_not drugs_validation in
  let cond := isin smiles valid_drugs in
  Some (select cond adata).

Definition check_smiles (smiles : string) : bool :=
  match MolFromSmiles smiles with
  | None => false
  | Some m => SanitizeMol m
  end.

(** [unique_drugs.apply(check_smiles)] on one entry: RDKit raises on an
    argument that is not a string. *)
Definition check_cell (c : cell) : option bool :=
  match c with
  | Str s => Some (check_smiles s)
  | _ => None
  end.

(** The verdict of [check_smiles] on a cell that holds a string. *)
Definition valid_cell (c : cell) : bool :=
  match c with
  | Str s => check_smiles s
  | _ => false
  end.

Definition remove_invalid_smiles (dataframe : DataFrame) (smiles_key : string)
    (return_condition : bool) : option (list bool + DataFrame) :=
  col ← column smiles_key dataframe;
  unique_drugs ← np_unique col;
  valid_drugs ← mapM check_cell unique_drugs;
  let _validation_map : gmap cell bool :=
    list_to_map (zip unique_drugs valid_drugs) in
  cond ← mapM (λ x, _validation_map !! x) col;
  if return_condition then Some (inl cond)
  else Some (inr (getitem_applied cond dataframe)).

(** [cond = remove_invalid_smiles(adata.obs, smiles_key='canonical_smiles',
    return_condition=True); adata = adata[cond]] *)
Definition cell_rdkit (adata : DataFrame) : option DataFrame :=
  r ← remove_invalid_smiles adata "canonical_smiles" true;
  match r with
  | inl cond => Some (select cond adata)
  | inr _ => None
  end.

(** The cell that adds the [train]/[test]/[ood] split over the distinct
    SMILES strings, if [adata.obs] has no [split] column yet. *)
Definition cell_split (adata : DataFrame) : option DataFrame :=
  if negb (has_column "split" adata) then
    smiles ← column "canonical_smiles" adata;
    unique_drugs ← np_unique smiles;
    '(drugs_train, drugs_tmp) ← train_test_split unique_drugs (Q2Qc (2 # 10)) 42;
    '(drugs_val, drugs_test) ← train_test_split drugs_tmp (Q2Qc (5 # 10)) 42;
    let adata := set_scalar "split" (Str "train") adata in
    smiles ← column "canonical_smiles" adata;
    let adata := loc_set (isin smiles drugs_val) "split" (Str "test") adata in
    smiles ← column "canonical_smiles" adata;
    let adata := loc_set (isin smiles drugs_test) "split" (Str "ood") adata in
    Some adata
  else Some adata.

(** [cond_test = adata.obs.split.isin(['test'])] *)
Definition cond_test (adata : DataFrame) : option (list bool) :=
  split ← column "split" adata;
  Some (isin split [Str "test"]).

Definition pert_count_treshold : nat := 5.
Definition cov_count_treshold : nat := 20.

(** The cell that computes [cond], the rows of the test split to convert
    back to [train]. *)
Definition cell_shrink_cond (adata : DataFrame) : option (list bool) :=
  cond_test ← cond_test adata;
  pert_id ← column "pert_id" adata;
  let pert_id_neg :=
    lt_scalar (value_counts (mask_filter cond_test pert_id)) pert_count_treshold in
  cell_id ← column "cell_id" adata;
  let cov_id_neg :=
    lt_scalar (value_counts (mask_filter cond_test cell_id)) cov_count_treshold in
  pert_id ← column "pert_id" adata;
  let cond := mask_and cond_test (isin pert_id (index_where pert_id_neg)) in
  cell_id ← column "cell_id" adata;
  let cond := mask_or cond (mask_and cond_test (isin cell_id (index_where cov_id_neg))) in
  Some cond.

(** [adata.obs['split1'] = adata.obs.split.copy();
    adata.obs.loc[cond, 'split1'] = 'train'] *)
Definition cell_split1 (cond : list bool) (adata : DataFrame) : option DataFrame :=
  split ← column "split" adata;
  let adata := set_column "split1" split adata in
  Some (loc_set cond "split1" (Str "train") adata).

(** The shrink-back as the notebook runs it: the condition, then [split1]. *)
Definition shrink_back (adata : DataFrame) : option DataFrame :=
  cond ← cell_shrink_cond adata;
  cell_split1 cond adata.

(** Number of rows whose label in [split] is [group] and whose entry in
    [col] is [v]: the count of a category inside a split group. *)
Definition group_count (split col : list cell) (group v : cell) : nat :=
  length (filter (λ sc, sc.1 = group ∧ sc.2 = v) (zip split col)).

(** The rows the shrink-back converts: rows of the test split whose
    perturbation or whose cell type is short of samples inside the test
    split. *)
Definition deficient (split pert_id cell_id : list cell) (p c : cell) : Prop :=
  (p ≠ NaN ∧ group_count split pert_id (Str "test") p < pert_count_treshold) ∨
  (c ≠ NaN ∧ group_count split cell_id (Str "test") c < cov_count_treshold).

#[global] Instance deficient_dec split pert_id cell_id p c :
  Decision (deficient split pert_id cell_id p c).
Proof. unfold deficient. apply _. Defined.

(** The cells that add the per-row [random_split]. *)
Definition cell_random_split (adata : DataFrame) : option DataFrame :=
  '(train_obs, val_test_obs) ← train_test_split (index adata) (Q2Qc (15 # 100)) 42;
  '(val_obs, test_obs) ← train_test_split val_test_obs (Q2Qc (5 # 10)) 42;
  let adata := set_scalar "random_split" (Str "") adata in
  adata ← loc_set_labels train_obs "random_split" (Str "train") adata;
  adata ← loc_set_labels val_obs "random_split" (Str "test") adata;
  loc_set_labels test_obs "random_split" (Str "ood") adata.

(** The filter steps between the merge and the split. *)
Definition filters (adata : DataFrame) : option DataFrame :=
  adata ← cell_invalid_smiles adata;
  adata ← cell_pert_dose adata;
  adata ← cell_replicates adata;
  cell_rdkit adata.

(** The steps from the split to the table that is written. *)
Definition splits (adata : DataFrame) : option DataFrame :=
  adata ← cell_split adata;
  adata ← shrink_back adata;
  cell_random_split adata.

(** The notebook from the loaded table to the table handed to
    [adata.write].  The cells in between that only read [adata] (the
    DrugBank overlap, the printed counts) are left out. *)
Definition notebook (reference_df : list (cell * cell)) (adata : DataFrame)
  : option DataFrame :=
  ids ← pert_id_unique adata;
  let reference_df := restrict_reference ids reference_df in
  adata ← cell_merge reference_df adata;
  adata ← filters adata;
  splits adata.

End Cells.
End Lincs.

(** ** [preprocessing/7_compute_embeddings.ipynb] *)

Module Embeddings.

(** What a call leaves behind: it returned, or it raised an instance of
    [Exception] whose [str] is the given text. *)
Inductive outcome : Type :=
  | Returned
  | Raised (text : string).

(** The names the notebook imports: the two directories, [os.path], and
    [embedding_rdkit.compute_rdkit_embeddings], which acts on the files
    ([World]) and returns or raises.  [os.makedirs] stands outside the
    [try]. *)
Class Env : Type := {
  World : Type;
  DATA_DIR : string;
  EMBEDDING_DIR : string;
  path_join : list string → string;
  splitext_root : string → string;
  dirname : string → string;
  makedirs : string → World → World * outcome;
  compute_rdkit_embeddings : string → string → string → World → World * outcome
}.

Definition datasets : list (string * string) :=
  [ ("lincs_smiles.h5ad", "SMILES");
    ("lincs_full_smiles.h5ad", "smiles");
    ("sciplex_complete.h5ad", "SMILES");
    ("adata_MCF7.h5ad", "SMILES");
    ("adata_MCF7_lincs_genes.h5ad", "SMILES");
    ("adata_K562.h5ad", "SMILES");
    ("adata_K562_lincs_genes.h5ad", "SMILES");
    ("adata_A549.h5ad", "SMILES");
    ("adata_A549_lincs_genes.h5ad", "SMILES");
    ("sciplex_complete_subset_lincs_genes_v2.h5ad", "SMILES");
    ("sciplex_complete_middle_subset_v2.h5ad", "SMILES");
    ("sciplex_complete_middle_subset_lincs_genes_v2.h5ad", "SMILES");
    ("sciplex_complete_v2.h5ad", "SMILES");
    ("sciplex_complete_lincs_genes_v2.h5ad", "SMILES") ].

Section Loop.
Context `{Env}.

Definition h5ad_path (dataset : string) : string :=
  path_join [DATA_DIR; dataset].

Definition output_path (dataset : string) : string :=
  let base_name := splitext_root dataset in
  let output_filename := (base_name ++ "_rdkit2D_embedding.parquet")%string in
  path_join [EMBEDDING_DIR; "rdkit"; output_filename].

(** The line [tqdm.write] prints in the handler. *)
Definition error_line (dataset text : string) : string :=
  ("Error processing " ++ dataset ++ ": " ++ text)%string.

(** The state of the run: the files and the lines written so far. *)
Record state : Type := mkState {
  world : World;
  written : list string
}.

(** One turn of the loop body.  The second component says whether the turn
    ended normally; an exception of [os.makedirs] is not handled and ends
    the run. *)
Definition body (item : string * string) (st : state) : state * outcome :=
  let '(dataset, smiles_key) := item in
  match makedirs (dirname (output_path dataset)) (world st) with
  | (w, Raised text) => (mkState w (written st), Raised text)
  | (w, Returned) =>
      match compute_rdkit_embeddings (h5ad_path dataset) (output_path dataset)
              smiles_key w with
      | (w', Returned) => (mkState w' (written st), Returned)
      | (w', Raised text) =>
          (mkState w' (written st ++ [error_line dataset text]), Returned)
      end
  end.

(** [for dataset, smiles_key in tqdm(datasets): ...] *)
Fixpoint run (items : list (string * string)) (st : state) : state * outcome :=
  match items with
  | [] => (st, Returned)
  | item :: rest =>
      match body item st with
      | (st', Returned) => run rest st'
      | (st', Raised text) => (st', Raised text)
      end
  end.

(** The lines a run over [items] owes: one per dataset whose call raises,
    in the order of the list, the files being handed on from call to call. *)
Fixpoint error_lines (items : list (string * string)) (w : World) : list string :=
  match items with
  | [] => []
  | (dataset, smiles_key) :: rest =>
      let w1 := (makedirs (dirname (output_path dataset)) w).1 in
      match compute_rdkit_embeddings (h5ad_path dataset) (output_path dataset)
              smiles_key w1 with
      | (w2, Returned) => error_lines rest w2
      | (w2, Raised text) => error_line dataset text :: error_lines rest w2
      end
  end.

End Loop.
End Embeddings.

(** ** Small tables to run the cells on *)

Module Examples.
Import Pandas Lincs Embeddings.

(** A split without the shuffle: the last [ceil(test_size * n)] entries are
    the test part, and an empty train part is refused as scikit-learn
    refuses it. *)
Definition cut_split (A : Type) (arr : list A) (test_size : Qc)
    (random_state : Z) : option (list A * list A) :=
  let n := length arr in
  let n_test := Z.to_nat (Qceiling (test_size * inject_Z (Z.of_nat n))) in
  let n_train := n - n_test in
  if bool_decide (n_train = 0) then None
  else Some (take n_train arr, drop n_train arr).

(** Stand-ins for RDKit and scikit-learn: a molecule is its own string, the
    string [?] does not parse, a carbon with five bonds does not pass the
    sanitization. *)
Definition small_libraries : Libraries :=
  {| float_str := λ _, "0.0"%string;
     Mol := string;
     MolFromSmiles := λ s, if bool_decide (s = "?"%string) then None else Some s;
     SanitizeMol := λ m, negb (bool_decide (m = "C(C)(C)(C)(C)C"%string));
     train_test_split := cut_split |}.

(** Eleven observations as they are loaded, with a [split] column. *)
Definition lincs_small : DataFrame :=
  {| index := ["obs_00"; "obs_01"; "obs_02"; "obs_03"; "obs_04"; "obs_05";
               "obs_06"; "obs_07"; "obs_08"; "obs_09"; "obs_10"]%string;
     columns := list_to_map
       [ ("pert_id"%string,
          replicate 9 (Str "BRD-A") ++ [Str "BRD-X"; Str "BRD-S"]);
         ("cell_id"%string, replicate 11 (Str "MCF7"));
         ("pert_dose"%string,
          replicate 8 (Num (Q2Qc 10)) ++ [Num (Q2Qc (-666))]
            ++ replicate 2 (Num (Q2Qc 10)));
         ("split"%string,
          replicate 5 (Str "train") ++ replicate 3 (Str "test")
            ++ [Str "ood"; Str "train"; Str "test"]) ] |}.

(** The reference rows: one compound with a SMILES string, one with the
    sentinel, one that no observation has; [BRD-X] is not listed. *)
Definition reference_small : list (cell * cell) :=
  [ (Str "BRD-A", Str "CCO"); (Str "BRD-S", Str "-666");
    (Str "BRD-Z", Str "CCN") ].

(** The same observations after the merge. *)
Definition joined_small : DataFrame :=
  set_column "canonical_smiles"
    (replicate 9 (Str "CCO") ++ [NaN; Str "-666"]) lincs_small.

(** Twelve observations of six compounds, without a [split] column. *)
Definition fresh_small : DataFrame :=
  {| index := ["obs_00"; "obs_01"; "obs_02"; "obs_03"; "obs_04"; "obs_05";
               "obs_06"; "obs_07"; "obs_08"; "obs_09"; "obs_10"; "obs_11"]%string;
     columns := list_to_map
       [ ("canonical_smiles"%string,
          [Str "CCO"; Str "CCN"; Str "CCC"; Str "CCO"; Str "c1ccccc1"; Str "CO";
           Str "CCN"; Str "CCC"; Str "CN"; Str "c1ccccc1"; Str "CO"; Str "CN"]) ] |}.

(** A world for the embedding loop: the files written so far.  The call
    raises on the dataset whose SMILES key is written in lower case. *)
Definition small_env : Env :=
  {| World := list string;
     DATA_DIR := "data"%string;
     EMBEDDING_DIR := "embeddings"%string;
     path_join := String.concat "/";
     splitext_root := λ s, s;
     dirname := λ s, s;
     makedirs := λ _ w, (w, Returned);
     compute_rdkit_embeddings := λ _ out smiles_key w,
       if bool_decide (smiles_key = "SMILES"%string)
       then (out :: w, Returned)
       else (w, Raised "'SMILES'") |}.

(** A table on which the fixup leaves the test split short of samples:
    three test rows of perturbation P, seventeen of Q, one cell type. *)
Definition stale_table : DataFrame :=
  {| index := replicate 20 "obs"%string;
     columns := list_to_map
       [ ("split"%string, replicate 20 (Str "test"));
         ("pert_id"%string, replicate 3 (Str "P") ++ replicate 17 (Str "Q"));
         ("cell_id"%string, replicate 20 (Str "A549")) ] |}.

(** Twenty test rows of one cell type and one ood row.  Two perturbations
    of three test rows each share the SMILES string [CCO], which so has six
    test rows. *)
Definition twin_table : DataFrame :=
  {| index := replicate 21 "obs"%string;
     columns := list_to_map
       [ ("split"%string, replicate 20 (Str "test") ++ [Str "ood"]);
         ("pert_id"%string,
          replicate 3 (Str "P1") ++ replicate 3 (Str "P2")
            ++ replicate 14 (Str "Q") ++ [Str "O"]);
         ("canonical_smiles"%string,
          replicate 6 (Str "CCO") ++ replicate 14 (Str "CCN") ++ [Str "CCC"]);
         ("cell_id"%string, replicate 21 (Str "A549")) ] |}.

(** A table with an ood row whose perturbation and cell type are short of
    samples inside the ood split. *)
Definition ood_table : DataFrame :=
  {| index := ["obs_0"; "obs_1"; "obs_2"]%string;
     columns := list_to_map
       [ ("split"%string, [Str "ood"; Str "train"; Str "train"]);
         ("pert_id"%string, [Str "BRD-O"; Str "BRD-T"; Str "BRD-T"]);
         ("cell_id"%string, [Str "A549"; Str "A549"; Str "MCF7"]) ] |}.

(** An observation with a perturbation that the reference table lists
    twice. *)
Definition dup_obs : DataFrame :=
  {| index := ["obs_0"]%string;
     columns := {[ "pert_id"%string := [Str "BRD-A"] ]} |}.

Definition dup_reference : list (cell * cell) :=
  [ (Str "BRD-A", Str "CCO"); (Str "BRD-A", Str "CCN") ].


(** Six observations whose SMILES column holds a string that does not parse
    and one that does not pass the sanitization. *)
Definition mixed_small : DataFrame :=
  {| index := ["obs_0"; "obs_1"; "obs_2"; "obs_3"; "obs_4"; "obs_5"]%string;
     columns := list_to_map
       [ ("SMILES"%string,
          [Str "CCO"; Str "?"; Str "CCN"; Str "C(C)(C)(C)(C)C"; Str "CCO";
           Str "?"]);
         ("dose"%string, replicate 6 (Num (Q2Qc 10))) ] |}.

(** The same world with a directory that cannot be created: [os.makedirs]
    raises for the third dataset. *)
Definition locked_env : Env :=
  {| World := list string;
     DATA_DIR := "data"%string;
     EMBEDDING_DIR := "embeddings"%string;
     path_join := String.concat "/";
     splitext_root := λ s, s;
     dirname := λ s, s;
     makedirs := λ path w,
       if bool_decide
            (path = "embeddings/rdkit/sciplex_complete.h5ad_rdkit2D_embedding.parquet"%string)
       then (w, Raised "[Errno 13] Permission denied")
       else (w, Returned);
     compute_rdkit_embeddings := λ _ out smiles_key w,
       if bool_decide (smiles_key = "SMILES"%string)
       then (out :: w, Returned)
       else (w, Raised "'SMILES'") |}.

End Examples.

(** * Properties *)

(** ** Masks, positions and counts *)

Module PandasFacts.
Import Pandas.

Section Masks.
Context {A : Type}.
Implicit Types (m : list bool) (l : list A).

Lemma mask_filter_nil_r m : mask_filter m (@nil A) = [].
Proof. by destruct m as [|[] ?]. Qed.

Lemma mask_filter_sublist m l : mask_filter m l `sublist_of` l.
Proof.
  revert l. induction m as [|b m IH]; intros [|x l]; simpl;
    try apply sublist_nil_l.
  destruct b; [by apply sublist_skip | by apply sublist_cons].
Qed.

Lemma length_mask_filter_le m l : length (mask_filter m l) ≤ length l.
Proof. apply sublist_length, mask_filter_sublist. Qed.

Lemma elem_of_mask_filter m l x : x ∈ mask_filter m l → x ∈ l.
Proof. intros Hx. eapply elem_of_sublist; [done | apply mask_filter_sublist]. Qed.

Lemma mask_filter_fmap (f : A → bool) l :
  mask_filter (f <$> l) l = filter (λ x, f x = true) l.
Proof.
  induction l as [|x l IH]; [done|].
  rewrite fmap_cons, filter_cons. simpl.
  destruct (f x) eqn:E; case_decide; try congruence; by rewrite IH.
Qed.

Lemma mask_filter_not_fmap (f : A → bool) l :
  mask_filter (mask_not (f <$> l)) l = filter (λ x, f x = false) l.
Proof.
  unfold mask_not. rewrite <- list_fmap_compose.
  rewrite (mask_filter_fmap (negb ∘ f)).
  apply list_filter_iff. intros x. simpl. by destruct (f x).
Qed.


End Masks.

Lemma mask_filter_zip {A B : Type} (m : list bool) (a : list A) (b : list B) :
  mask_filter m (zip a b) = zip (mask_filter m a) (mask_filter m b).
Proof.
  revert a b. induction m as [|c m IH]; intros [|x a] [|y b]; simpl; try done.
  - by rewrite zip_with_nil_r.
  - destruct c; simpl; by rewrite IH.
Qed.

(** A filter that decides by the value keeps or drops all the occurrences of
    a value together. *)
Lemma count_of_filter (P : cell → Prop) `{∀ c, Decision (P c)} v col :
  P v → count_of v (filter P col) = count_of v col.
Proof.
  intros Hv. unfold count_of. f_equal.
  induction col as [|c col IH]; [done|].
  rewrite !filter_cons. destruct (decide (P c)) as [Hc|Hc].
  - rewrite filter_cons. destruct (decide (c = v)); by rewrite IH.
  - rewrite decide_False; [done|]. by intros ->.
Qed.

Lemma count_of_pos v col : v ∈ col → 0 < count_of v col.
Proof.
  intros Hv. unfold count_of.
  assert (v ∈ filter (λ c, c = v) col) as Hin by (by apply list_elem_of_filter).
  destruct (filter _ col); [by apply elem_of_nil in Hin | simpl; lia].
Qed.

(** What [counts < threshold] followed by [.index[...]] and [isin] tests. *)
Lemma elem_of_index_where col t v :
  v ∈ index_where (lt_scalar (value_counts col) t) ↔
  v ∈ col ∧ v ≠ NaN ∧ count_of v col < t.
Proof.
  unfold index_where, lt_scalar, value_counts.
  rewrite list_elem_of_fmap. split.
  - intros ([v' b] & -> & Hin). apply list_elem_of_filter in Hin as [Hb Hin].
    apply list_elem_of_fmap in Hin as ([v'' n] & [= -> ->] & Hin).
    apply list_elem_of_fmap in Hin as (w & [= -> ->] & Hin).
    apply elem_of_remove_dups, list_elem_of_filter in Hin as [Hw Hin].
    simpl in *. apply bool_decide_eq_true in Hb.
    rewrite count_of_filter in Hb by done. done.
  - intros (Hin & Hn & Hc). exists (v, true). split; [done|].
    apply list_elem_of_filter. split; [done|].
    apply list_elem_of_fmap. exists (v, count_of v col). split.
    + simpl. f_equal. symmetry. by apply bool_decide_eq_true.
    + apply list_elem_of_fmap. exists v. split.
      * by rewrite count_of_filter.
      * by apply elem_of_remove_dups, list_elem_of_filter.
Qed.

Lemma elem_of_index_where_not col t v :
  v ∈ index_where_not (lt_scalar (value_counts col) t) ↔
  v ∈ col ∧ v ≠ NaN ∧ t ≤ count_of v col.
Proof.
  unfold index_where_not, lt_scalar, value_counts.
  rewrite list_elem_of_fmap. split.
  - intros ([v' b] & -> & Hin). apply list_elem_of_filter in Hin as [Hb Hin].
    apply list_elem_of_fmap in Hin as ([v'' n] & [= -> ->] & Hin).
    apply list_elem_of_fmap in Hin as (w & [= -> ->] & Hin).
    apply elem_of_remove_dups, list_elem_of_filter in Hin as [Hw Hin].
    simpl in *. apply bool_decide_eq_false in Hb.
    rewrite count_of_filter in Hb by done. split_and!; [done..|lia].
  - intros (Hin & Hn & Hc). exists (v, false). split; [done|].
    apply list_elem_of_filter. split; [done|].
    apply list_elem_of_fmap. exists (v, count_of v col). split.
    + simpl. f_equal. symmetry. apply bool_decide_eq_false. lia.
    + apply list_elem_of_fmap. exists v. split.
      * by rewrite count_of_filter.
      * by apply elem_of_remove_dups, list_elem_of_filter.
Qed.

End PandasFacts.

(** ** Columns under the frame operations *)

Module FrameFacts.
Import Pandas PandasFacts.

Lemma column_select name mask df :
  column name (select mask df) = mask_filter mask <$> column name df.
Proof. unfold column, select. simpl. by rewrite lookup_fmap. Qed.

Lemma column_select_Some name mask df col' :
  column name (select mask df) = Some col' →
  ∃ col, column name df = Some col ∧ col' = mask_filter mask col.
Proof.
  rewrite column_select. destruct (column name df) as [col|]; [|done].
  intros [= <-]. by exists col.
Qed.

Lemma column_set_column_eq name col df :
  column name (set_column name col df) = Some col.
Proof. unfold column, set_column. simpl. by rewrite lookup_insert_eq. Qed.

Lemma column_set_column_ne name name' col df :
  name' ≠ name → column name (set_column name' col df) = column name df.
Proof. intros. unfold column, set_column. simpl. by rewrite lookup_insert_ne. Qed.

Lemma column_loc_set_ne name name' mask v df :
  name' ≠ name → column name (loc_set mask name' v df) = column name df.
Proof. intros. unfold loc_set. by rewrite column_set_column_ne. Qed.

Lemma index_select mask df : index (select mask df) = mask_filter mask (index df).
Proof. done. Qed.

Lemma index_loc_set mask name v df : index (loc_set mask name v df) = index df.
Proof. done. Qed.

Lemma has_column_true name df :
  has_column name df = true ↔ is_Some (column name df).
Proof. unfold has_column. apply bool_decide_eq_true. Qed.

Lemma has_column_false name df :
  has_column name df = false ↔ column name df = None.
Proof.
  unfold has_column, column. rewrite bool_decide_eq_false.
  by rewrite eq_None_not_Some.
Qed.

Lemma well_formed_select mask df :
  well_formed df → length mask = n_rows df → well_formed (select mask df).
Proof.
  intros Hwf Hm name col' (col & Hc & ->)%column_select_Some.
  unfold n_rows at 1. rewrite index_select.
  apply Hwf in Hc. unfold n_rows in *.
  revert Hm Hc. generalize (index df). revert col.
  induction mask as [|b mask IH]; intros [|c col] [|i idx]; simpl; try done.
  intros [= Hm] [= Hc]. destruct b; simpl; by rewrite (IH col idx).
Qed.

Lemma well_formed_set_column name col df :
  well_formed df → length col = n_rows df → well_formed (set_column name col df).
Proof.
  intros Hwf Hlen name' col'. unfold set_column, n_rows. simpl.
  rewrite lookup_insert. case_decide; [by intros [= <-]|]. apply Hwf.
Qed.

Lemma length_mask_assign mask v col :
  length (mask_assign mask v col) = Nat.min (length mask) (length col).
Proof. unfold mask_assign. apply length_zip_with. Qed.

Lemma lookup_mask_assign mask v col i (b : bool) c :
  mask !! i = Some b → col !! i = Some c →
  mask_assign mask v col !! i = Some (if b then v else c).
Proof.
  intros Hb Hc. unfold mask_assign. rewrite lookup_zip_with, Hb. simpl.
  by rewrite Hc.
Qed.

Lemma lookup_isin col values i c :
  col !! i = Some c → isin col values !! i = Some (bool_decide (c ∈ values)).
Proof. intros Hc. unfold isin. by rewrite list_lookup_fmap, Hc. Qed.

Lemma length_isin col values : length (isin col values) = length col.
Proof. unfold isin. apply length_fmap. Qed.

End FrameFacts.

(** ** The filter cells *)

Module FilterFacts.
Import Pandas PandasFacts FrameFacts Lincs.

Section Filters.
Context `{Libraries}.

Lemma cell_invalid_smiles_Some a b :
  cell_invalid_smiles a = Some b →
  ∃ smiles, column "canonical_smiles" a = Some smiles ∧
    b = select (mask_not (isin (astype_str float_str smiles) sentinels))
          (set_column "canonical_smiles" (astype_str float_str smiles) a).
Proof.
  unfold cell_invalid_smiles.
  destruct (column "canonical_smiles" a) as [smiles|]; [|done]. simpl.
  rewrite column_set_column_eq. simpl. intros [= <-]. by exists smiles.
Qed.

Lemma cell_pert_dose_Some a b :
  cell_pert_dose a = Some b →
  ∃ dose, column "pert_dose" a = Some dose ∧
    b = select (mask_not (isin dose [dose_sentinel])) a.
Proof.
  unfold cell_pert_dose.
  destruct (column "pert_dose" a) as [dose|]; [|done]. simpl.
  intros [= <-]. by exists dose.
Qed.

Lemma cell_replicates_Some a b :
  cell_replicates a = Some b →
  ∃ smiles, column "canonical_smiles" a = Some smiles ∧
    b = select (isin smiles (index_where_not
                   (lt_scalar (value_counts smiles) min_replicates))) a.
Proof.
  unfold cell_replicates.
  destruct (column "canonical_smiles" a) as [smiles|]; [|done]. simpl.
  intros [= <-]. by exists smiles.
Qed.

(** The dictionary built from [zip(unique_drugs, valid_drugs)] answers every
    key with the verdict computed for it. *)
Lemma validation_map_lookup (f : cell → option bool) us vs x :
  Forall2 (λ u v, f u = Some v) us vs → x ∈ us →
  (list_to_map (zip us vs) : gmap cell bool) !! x = f x.
Proof.
  induction 1 as [|u v us vs Hu _ IH]; [by intros ?%elem_of_nil|].
  intros Hx. simpl. rewrite lookup_insert. case_decide as Hux.
  - by subst.
  - apply elem_of_cons in Hx as [->|Hx]; [done | by apply IH].
Qed.

Lemma np_unique_elem_of col us x : np_unique col = Some us → x ∈ us ↔ x ∈ col.
Proof.
  unfold np_unique. case_match; [|done]. intros [= <-].
  by rewrite merge_sort_Permutation, elem_of_remove_dups.
Qed.

Lemma np_unique_Permutation col us :
  np_unique col = Some us → us ≡ₚ remove_dups col.
Proof.
  unfold np_unique. case_match; [|done]. intros [= <-].
  apply merge_sort_Permutation.
Qed.

Lemma remove_invalid_smiles_cond df key r :
  remove_invalid_smiles df key true = Some r →
  ∃ col, column key df = Some col ∧ r = inl (valid_cell <$> col) ∧
         Forall (λ c, is_str c = true) col.
Proof.
  unfold remove_invalid_smiles.
  destruct (column key df) as [col|]; [|done]. simpl.
  destruct (np_unique col) as [us|] eqn:Hus; [|done]. simpl.
  destruct (mapM check_cell us) as [vs|] eqn:Hvs; [|done]. simpl.
  destruct (mapM _ col) as [cond|] eqn:Hcond; [|done]. simpl.
  intros [= <-]. exists col. split; [done|].
  apply mapM_Some in Hvs. apply mapM_Some in Hcond.
  assert (Forall (λ c, ∀ b,
            (list_to_map (zip us vs) : gmap cell bool) !! c = Some b →
            is_str c = true ∧ b = valid_cell c) col) as Hall.
  { apply Forall_forall. intros c Hc b Hlook.
    rewrite (validation_map_lookup check_cell) in Hlook;
      [|done|by eapply np_unique_elem_of].
    destruct c; simplify_eq/=; done. }
  clear Hvs Hus. revert Hcond Hall. generalize (list_to_map (zip us vs) : gmap cell bool).
  intros m Hcond Hall.
  assert (cond = valid_cell <$> col ∧ Forall (λ c, is_str c = true) col)
    as [-> ?]; [|done].
  induction Hcond as [|c b col cond Hcb _ IH]; [done|].
  apply Forall_cons in Hall as [Hc Hall].
  destruct (Hc _ Hcb) as [? ->]. destruct (IH Hall) as [-> ?].
  split; [done | by constructor].
Qed.

Lemma cell_rdkit_Some a b :
  cell_rdkit a = Some b →
  ∃ smiles, column "canonical_smiles" a = Some smiles ∧
    b = select (valid_cell <$> smiles) a ∧
    Forall (λ c, is_str c = true) smiles.
Proof.
  unfold cell_rdkit.
  destruct (remove_invalid_smiles _ _ _) as [r|] eqn:Hr; [|done]. simpl.
  apply remove_invalid_smiles_cond in Hr as (col & Hcol & -> & Hstr).
  intros [= <-]. by exists col.
Qed.

Lemma filters_Some adata out :
  filters adata = Some out →
  ∃ a1 a2 a3,
    cell_invalid_smiles adata = Some a1 ∧ cell_pert_dose a1 = Some a2 ∧
    cell_replicates a2 = Some a3 ∧ cell_rdkit a3 = Some out.
Proof.
  unfold filters.
  destruct (cell_invalid_smiles adata) as [a1|] eqn:H1; [|done]. simpl.
  destruct (cell_pert_dose a1) as [a2|] eqn:H2; [|done]. simpl.
  destruct (cell_replicates a2) as [a3|] eqn:H3; [|done]. simpl.
  intros Hout. by exists a1, a2, a3.
Qed.

(** C4.  Every row that is left after the filter cells has a
    [canonical_smiles] entry that is a string (not a missing value), is none
    of ['-666'], ['restricted'], ['nan'], is parsed by [MolFromSmiles] and
    passes [SanitizeMol], and occurs on at least [min_replicates] = 6 rows of
    the filtered table; its [pert_dose] entry is not [-666]. *)
Theorem retained_rows_valid adata out :
  filters adata = Some out →
  ∃ smiles pert_dose,
    column "canonical_smiles" out = Some smiles ∧
    column "pert_dose" out = Some pert_dose ∧
    (∀ i c, smiles !! i = Some c →
       ∃ s m, c = Str s ∧ (c ∉ sentinels) ∧
              MolFromSmiles s = Some m ∧ SanitizeMol m = true ∧
              min_replicates ≤ count_of c smiles) ∧
    (∀ i d, pert_dose !! i = Some d → d ≠ dose_sentinel).
Proof.
  intros (a1 & a2 & a3 & H1 & H2 & H3 & H4)%filters_Some.
  apply cell_invalid_smiles_Some in H1 as (s0 & Hs0 & ->).
  apply cell_pert_dose_Some in H2 as (d1 & Hd1 & ->).
  apply cell_replicates_Some in H3 as (s2 & Hs2 & ->).
  apply cell_rdkit_Some in H4 as (s3 & Hs3 & -> & _).
  (* the canonical_smiles column, step by step *)
  rewrite column_select in Hs3. rewrite Hs2 in Hs3. simpl in Hs3.
  injection Hs3 as <-.
  rewrite column_select, column_select, column_set_column_eq in Hs2.
  simpl in Hs2. injection Hs2 as <-.
  rewrite column_select, column_set_column_ne in Hd1 by done.
  destruct (column "pert_dose" adata) as [d0|] eqn:Hd0; [|done].
  simpl in Hd1. injection Hd1 as <-.
  set (s0' := astype_str float_str s0).
  set (m1 := mask_not (isin s0' sentinels)).
  set (d1 := mask_filter m1 d0).
  set (m2 := mask_not (isin d1 [dose_sentinel])).
  set (s2 := mask_filter m2 (mask_filter m1 s0')).
  set (valid := index_where_not (lt_scalar (value_counts s2) min_replicates)).
  set (s3 := mask_filter (isin s2 valid) s2).
  exists (mask_filter (valid_cell <$> s3) s3),
         (mask_filter (valid_cell <$> s3) (mask_filter (isin s2 valid)
            (mask_filter m2 d1))).
  split_and!.
  - rewrite column_select, column_select, column_select, column_select,
      column_set_column_eq. done.
  - rewrite column_select, column_select, column_select, column_select,
      column_set_column_ne, Hd0 by done. done.
  - intros i c Hc. apply list_elem_of_lookup_2 in Hc.
    rewrite mask_filter_fmap in Hc |- *.
    apply list_elem_of_filter in Hc as [Hvalid Hc3].
    destruct c as [|s|]; try done.
    assert (valid_cell (Str s) = true) as Hvalid' by done.
    simpl in Hvalid. unfold check_smiles in Hvalid.
    destruct (MolFromSmiles s) as [m|] eqn:Hm; [|done].
    exists s, m. split_and!; try done.
    + assert (Str s ∈ mask_filter m1 s0') as Hc1.
      { eapply elem_of_mask_filter, elem_of_mask_filter, Hc3. }
      unfold m1 in Hc1. unfold isin in Hc1. rewrite mask_filter_not_fmap in Hc1.
      apply list_elem_of_filter in Hc1 as [Hc1 _].
      by apply bool_decide_eq_false in Hc1.
    + rewrite count_of_filter by done.
      unfold s3 in Hc3 |- *. unfold isin in Hc3 |- *.
      rewrite mask_filter_fmap in Hc3 |- *.
      apply list_elem_of_filter in Hc3 as [Hv Hc2].
      rewrite count_of_filter by done.
      apply bool_decide_eq_true in Hv.
      by apply elem_of_index_where_not in Hv as (_ & _ & ?).
  - intros i d Hd. apply list_elem_of_lookup_2 in Hd.
    do 2 apply elem_of_mask_filter in Hd.
    unfold m2 in Hd. unfold isin in Hd. rewrite mask_filter_not_fmap in Hd.
    apply list_elem_of_filter in Hd as [Hd _].
    apply bool_decide_eq_false in Hd. intros ->. apply Hd, list_elem_of_here.
Qed.

End Filters.
End FilterFacts.

(** ** The left merge *)

Module MergeFacts.
Import Pandas PandasFacts FrameFacts Lincs.

Lemma take_rows_app {A} (ps qs : list nat) (l : list A) :
  take_rows (ps ++ qs) l = take_rows ps l ++ take_rows qs l.
Proof. unfold take_rows. apply omap_app. Qed.

Lemma take_rows_seq_app {A} (pre l : list A) :
  take_rows (seq (length pre) (length l)) (pre ++ l) = l.
Proof.
  revert pre. induction l as [|x l IH]; intros pre; [done|].
  simpl. unfold take_rows in *. simpl.
  rewrite lookup_app_r, Nat.sub_diag by done. simpl. f_equal.
  specialize (IH (pre ++ [x])). rewrite length_app in IH. simpl in IH.
  rewrite Nat.add_1_r, <- app_assoc in IH. done.
Qed.

Lemma take_rows_seq {A} (l : list A) n :
  length l = n → take_rows (seq 0 n) l = l.
Proof. intros <-. apply (take_rows_seq_app []). Qed.

Lemma length_take_rows {A} (ps : list nat) (l : list A) :
  Forall (λ p, p < length l) ps → length (take_rows ps l) = length ps.
Proof.
  induction 1 as [|p ps Hp _ IH]; [done|]. unfold take_rows in *. simpl.
  destruct (lookup_lt_is_Some_2 l p Hp) as [x ->]. simpl. by f_equal.
Qed.

Lemma length_entries n (col : option (list cell)) :
  (∀ l, col = Some l → length l = n) → length (entries n col) = n.
Proof.
  destruct col as [l|]; simpl; intros Hl.
  - rewrite length_fmap. by apply Hl.
  - by rewrite length_replicate.
Qed.

Lemma length_join_keys key value left :
  well_formed left → length (join_keys key value left) = n_rows left.
Proof.
  intros Hwf. unfold join_keys.
  rewrite length_zip_with, !length_entries; [lia|..];
    intros l Hl; by apply Hwf in Hl.
Qed.

Lemma zip_Some_None (l : list cell) :
  zip (Some <$> l) (replicate (length l) (@None cell))
  = (λ k, (Some k, None)) <$> l.
Proof. induction l as [|x l IH]; simpl; [done|]. f_equal. apply IH. Qed.

Lemma zip_Some_Some (l k : list cell) :
  zip (Some <$> l) (Some <$> k) = (λ kv, (Some kv.1, Some kv.2)) <$> zip l k.
Proof.
  revert k. induction l as [|x l IH]; intros [|y k]; simpl; try done.
  f_equal. apply IH.
Qed.

(** The join keys when the left frame has the key column alone, and when it
    has both columns. *)
Lemma join_keys_key_only key value left keys :
  well_formed left →
  column key left = Some keys → column value left = None →
  join_keys key value left = (λ k, (Some k, None)) <$> keys.
Proof.
  intros Hwf Hkeys Hvalue. unfold join_keys. rewrite Hkeys, Hvalue. simpl.
  rewrite <- (Hwf _ _ Hkeys). apply zip_Some_None.
Qed.

Lemma join_keys_both key value left keys values :
  column key left = Some keys → column value left = Some values →
  join_keys key value left
  = (λ kv, (Some kv.1, Some kv.2)) <$> zip keys values.
Proof.
  intros Hkeys Hvalue. unfold join_keys. rewrite Hkeys, Hvalue. simpl.
  apply zip_Some_Some.
Qed.

Lemma matches_key_only k right :
  matches (Some k, None) right = filter (λ r, r.1 = k) right.
Proof.
  unfold matches. apply list_filter_iff. intros r. simpl. split.
  - by intros [-> _].
  - by intros ->.
Qed.

Lemma matches_both k v right :
  matches (Some k, Some v) right = filter (λ r, r = (k, v)) right.
Proof.
  unfold matches. apply list_filter_iff. intros [k' v']. simpl. split.
  - by intros [-> ->].
  - by intros [= -> ->].
Qed.



Lemma length_merge_rows_ge pos jks right :
  length jks ≤ length (merge_rows pos jks right).
Proof.
  revert pos. induction jks as [|jk jks IH]; intros pos; simpl; [done|].
  rewrite length_app. specialize (IH (S pos)).
  destruct (matches jk right); simpl; lia.
Qed.

Lemma merge_rows_positions pos jks right :
  Forall (λ r, r.1 < pos + length jks) (merge_rows pos jks right).
Proof.
  revert pos. induction jks as [|jk jks IH]; intros pos; simpl; [done|].
  apply Forall_app. split.
  - apply Forall_forall. intros r Hr. assert (r.1 = pos) as ->; [|lia].
    destruct (matches jk right) as [|v ms].
    + by apply list_elem_of_singleton in Hr as ->.
    + apply elem_of_cons in Hr as [->|Hr]; [done|].
      by apply (list_elem_of_fmap (λ v, (pos, Some v))) in Hr as (? & -> & _).
  - eapply Forall_impl; [apply IH|]. intros r. simpl. lia.
Qed.

(** The merge has one row per left row exactly when no left row matches two
    right rows. *)
Lemma length_merge_rows_eq pos jks right :
  length (merge_rows pos jks right) = length jks ↔
  Forall (λ jk, length (matches jk right) ≤ 1) jks.
Proof.
  revert pos. induction jks as [|jk jks IH]; intros pos; simpl; [done|].
  rewrite Forall_cons, <- (IH (S pos)), length_app.
  pose proof (length_merge_rows_ge (S pos) jks right).
  destruct (matches jk right) as [|v [|v' ms]]; simpl; lia.
Qed.

(** It then pairs every left row with the first right row that matches. *)
Lemma merge_rows_same_length pos jks right :
  length (merge_rows pos jks right) = length jks →
  merge_rows pos jks right
  = zip (seq pos (length jks)) ((λ jk, head (matches jk right)) <$> jks).
Proof.
  revert pos. induction jks as [|jk jks IH]; intros pos; simpl; [done|].
  rewrite length_app. pose proof (length_merge_rows_ge (S pos) jks right).
  destruct (matches jk right) as [|v [|v' ms]]; simpl; intros Hlen.
  - f_equal. apply IH. lia.
  - f_equal. apply IH. lia.
  - lia.
Qed.

Lemma take_rows_columns (cols : gmap string (list cell)) n :
  (∀ name col, cols !! name = Some col → length col = n) →
  take_rows (seq 0 n) <$> cols = cols.
Proof.
  intros Hwf. apply map_eq. intros name. rewrite lookup_fmap.
  destruct (cols !! name) as [col|] eqn:Hcol; [|done]. simpl.
  by rewrite take_rows_seq by eauto.
Qed.

Lemma n_rows_merge_left key value left right merged :
  well_formed left →
  merge_left key value left right = Some merged →
  n_rows merged = length (merge_rows 0 (join_keys key value left) right).
Proof.
  intros Hwf Hm.
  assert (index merged =
    take_rows (merge_rows 0 (join_keys key value left) right).*1 (index left))
    as Hidx.
  { unfold merge_left in Hm.
    destruct (column key left), (column value left); by simplify_eq. }
  unfold n_rows. rewrite Hidx, length_take_rows, length_fmap; [done|].
  apply Forall_fmap. eapply Forall_impl; [apply merge_rows_positions|].
  intros r. simpl. rewrite length_join_keys by done. unfold n_rows. lia.
Qed.

Lemma lookup_add_missing name col cols name' :
  add_missing name col cols !! name' =
  match cols !! name' with
  | Some c => Some c
  | None => if decide (name = name') then Some col else None
  end.
Proof.
  unfold add_missing. destruct (cols !! name) as [c|] eqn:Hc.
  - destruct (cols !! name') eqn:Hc'; [done|]. case_decide; congruence.
  - destruct (decide (name = name')) as [<-|Hne].
    + by rewrite lookup_insert_eq, Hc.
    + rewrite lookup_insert_ne by done. by destruct (cols !! name').
Qed.

(** When the merge cell goes through, the table has the rows it had, and the
    columns it had with the entries they had; a join column that was missing
    has been added, with the entry of the first reference row that matches
    the row, or a missing value. *)
Lemma cell_merge_Some reference_df adata merged :
  well_formed adata →
  cell_merge reference_df adata = Some merged →
  let found := (λ jk, head (matches jk reference_df))
                 <$> join_keys "pert_id" "canonical_smiles" adata in
  merged =
    {| index := index adata;
       columns :=
         add_missing "pert_id" (from_option fst NaN <$> found)
           (add_missing "canonical_smiles" (from_option snd NaN <$> found)
              (columns adata)) |}.
Proof.
  intros Hwf. unfold cell_merge.
  destruct (merge_left _ _ adata reference_df) as [merged'|] eqn:Hm; [|done].
  simpl. case_bool_decide as Hn; [|done]. intros [= <-].
  rewrite (n_rows_merge_left _ _ _ _ _ Hwf Hm) in Hn.
  rewrite <- (length_join_keys "pert_id" "canonical_smiles") in Hn by done.
  pose proof (merge_rows_same_length _ _ _ Hn) as Hrows.
  rewrite length_join_keys in Hrows by done.
  unfold merge_left in Hm.
  assert (Some merged' = Some
    (let rows := merge_rows 0 (join_keys "pert_id" "canonical_smiles" adata)
                   reference_df in
     {| index := take_rows rows.*1 (index adata);
        columns :=
          add_missing "pert_id" (from_right fst rows)
            (add_missing "canonical_smiles" (from_right snd rows)
               (take_rows rows.*1 <$> columns adata)) |})) as [= ->].
  { destruct (column "pert_id" adata), (column "canonical_smiles" adata);
      by simplify_eq. }
  simpl. unfold from_right. rewrite Hrows.
  assert (length (seq 0 (n_rows adata)) =
          length ((λ jk, head (matches jk reference_df))
                    <$> join_keys "pert_id" "canonical_smiles" adata)) as Hlen.
  { by rewrite length_seq, length_fmap, length_join_keys. }
  rewrite fst_zip by lia.
  rewrite take_rows_seq by done.
  rewrite (take_rows_columns _ _ Hwf).
  assert (∀ f : cell * cell → cell,
    (λ row : nat * option (cell * cell), from_option f NaN row.2)
      <$> zip (seq 0 (n_rows adata))
            ((λ jk, head (matches jk reference_df))
               <$> join_keys "pert_id" "canonical_smiles" adata)
    = from_option f NaN <$> ((λ jk, head (matches jk reference_df))
               <$> join_keys "pert_id" "canonical_smiles" adata)) as Hf.
  { intros f. rewrite <- (snd_zip (seq 0 (n_rows adata))
      ((λ jk, head (matches jk reference_df))
         <$> join_keys "pert_id" "canonical_smiles" adata)) at 2 by lia.
    by rewrite <- list_fmap_compose. }
  by rewrite !Hf.
Qed.

Lemma cell_merge_index reference_df adata merged :
  well_formed adata → cell_merge reference_df adata = Some merged →
  index merged = index adata.
Proof. intros Hwf Hm. by rewrite (cell_merge_Some _ _ _ Hwf Hm). Qed.

Lemma cell_merge_keeps_column reference_df adata merged name col :
  well_formed adata → cell_merge reference_df adata = Some merged →
  column name adata = Some col → column name merged = Some col.
Proof.
  intros Hwf Hm Hcol. rewrite (cell_merge_Some _ _ _ Hwf Hm).
  unfold column in *. simpl. by rewrite !lookup_add_missing, Hcol.
Qed.

Lemma cell_merge_well_formed reference_df a b :
  well_formed a → cell_merge reference_df a = Some b → well_formed b.
Proof.
  intros Hwf Hm. rewrite (cell_merge_Some _ _ _ Hwf Hm).
  intros name col. simpl. rewrite !lookup_add_missing. unfold n_rows. simpl.
  destruct (columns a !! name) as [c|] eqn:Hc.
  - intros [= <-]. by apply Hwf in Hc.
  - repeat case_decide; intros [= <-];
      by rewrite !length_fmap, length_join_keys.
Qed.

(** The merge cell goes through exactly when the table has one of the join
    columns and no row matches two reference rows. *)
Lemma cell_merge_is_Some reference_df adata :
  well_formed adata →
  is_Some (cell_merge reference_df adata) ↔
  (is_Some (column "pert_id" adata) ∨
   is_Some (column "canonical_smiles" adata)) ∧
  Forall (λ jk, length (matches jk reference_df) ≤ 1)
    (join_keys "pert_id" "canonical_smiles" adata).
Proof.
  intros Hwf. rewrite <- (length_merge_rows_eq 0), length_join_keys by done.
  unfold cell_merge.
  destruct (merge_left _ _ adata reference_df) as [merged|] eqn:Hm; simpl.
  - rewrite <- (n_rows_merge_left _ _ _ _ _ Hwf Hm).
    assert (is_Some (column "pert_id" adata) ∨
            is_Some (column "canonical_smiles" adata)) as Hcol.
    { unfold merge_left in Hm.
      destruct (column "pert_id" adata), (column "canonical_smiles" adata);
        eauto; done. }
    case_bool_decide; split; try done. by intros [_ ?].
  - split; [by intros []%is_Some_None|]. intros [Hcol _]. exfalso.
    unfold merge_left in Hm.
    destruct (column "pert_id" adata), (column "canonical_smiles" adata);
      try done.
    by destruct Hcol as [[]%is_Some_None|[]%is_Some_None].
Qed.

(** On a table without a [canonical_smiles] column the join is on [pert_id]
    and the cell adds the column of the joined values. *)
Lemma cell_merge_new_column reference_df adata merged keys :
  well_formed adata →
  column "pert_id" adata = Some keys →
  column "canonical_smiles" adata = None →
  cell_merge reference_df adata = Some merged →
  merged = set_column "canonical_smiles" (joined_value reference_df <$> keys) adata.
Proof.
  intros Hwf Hkeys Hnone Hm. rewrite (cell_merge_Some _ _ _ Hwf Hm).
  rewrite (join_keys_key_only _ _ _ _ Hwf Hkeys Hnone).
  unfold set_column. f_equal. unfold column in *.
  unfold add_missing at 2. rewrite Hnone.
  unfold add_missing. rewrite lookup_insert_ne, Hkeys by done.
  f_equal. rewrite <- !list_fmap_compose. done.
Qed.

End MergeFacts.

(** ** The split cells *)

Module SplitFacts.
Import Pandas PandasFacts FrameFacts Lincs.

Lemma count_of_group split col group v :
  count_of v (mask_filter (isin split [group]) col) = group_count split col group v.
Proof.
  unfold count_of, group_count. revert col.
  induction split as [|s split IH]; intros [|c col]; simpl; try done.
  rewrite (filter_cons _ (s, c)). simpl. case_bool_decide as Hs.
  - apply list_elem_of_singleton in Hs as ->. rewrite filter_cons.
    destruct (decide (c = v)) as [->|Hc].
    + rewrite decide_True by done. simpl. by rewrite IH.
    + rewrite decide_False by (by intros [_ ?]). apply IH.
  - rewrite decide_False; [apply IH|].
    intros [-> _]. apply Hs, list_elem_of_here.
Qed.

Lemma elem_of_mask_filter_lookup {A} (m : list bool) (l : list A) i x :
  m !! i = Some true → l !! i = Some x → x ∈ mask_filter m l.
Proof.
  revert l i. induction m as [|b m IH]; intros [|y l] [|i]; simpl; try done.
  - intros [= ->] [= ->]. apply list_elem_of_here.
  - intros Hm Hl. destruct b; [apply list_elem_of_further|]; by eapply IH.
Qed.

Section Splits.
Context `{Libraries}.

Lemma cell_split_existing adata :
  has_column "split" adata = true → cell_split adata = Some adata.
Proof. intros Hs. unfold cell_split. by rewrite Hs. Qed.

Lemma cell_split_new adata out :
  has_column "split" adata = false → cell_split adata = Some out →
  ∃ smiles unique_drugs drugs_train drugs_tmp drugs_val drugs_test,
    column "canonical_smiles" adata = Some smiles ∧
    np_unique smiles = Some unique_drugs ∧
    train_test_split unique_drugs (Q2Qc (2 # 10)) 42 = Some (drugs_train, drugs_tmp) ∧
    train_test_split drugs_tmp (Q2Qc (5 # 10)) 42 = Some (drugs_val, drugs_test) ∧
    out = loc_set (isin smiles drugs_test) "split" (Str "ood")
            (loc_set (isin smiles drugs_val) "split" (Str "test")
               (set_scalar "split" (Str "train") adata)).
Proof.
  intros Hs. unfold cell_split. rewrite Hs. simpl.
  destruct (column "canonical_smiles" adata) as [smiles|] eqn:Hsm; [|done]. simpl.
  destruct (np_unique smiles) as [us|] eqn:Hus; [|done]. simpl.
  destruct (train_test_split us _ _) as [[tr tmp]|] eqn:H1; [|done]. simpl.
  destruct (train_test_split tmp _ _) as [[va te]|] eqn:H2; [|done]. simpl.
  unfold set_scalar. rewrite column_set_column_ne, Hsm by done. simpl.
  rewrite column_loc_set_ne, column_set_column_ne, Hsm by done. simpl.
  intros [= <-]. by exists smiles, us, tr, tmp, va, te.
Qed.

Lemma shrink_back_Some adata out :
  shrink_back adata = Some out →
  ∃ split pert_id cell_id,
    column "split" adata = Some split ∧
    column "pert_id" adata = Some pert_id ∧
    column "cell_id" adata = Some cell_id ∧
    let cond_test := isin split [Str "test"] in
    let pert_id_neg :=
      lt_scalar (value_counts (mask_filter cond_test pert_id)) pert_count_treshold in
    let cov_id_neg :=
      lt_scalar (value_counts (mask_filter cond_test cell_id)) cov_count_treshold in
    let cond :=
      mask_or (mask_and cond_test (isin pert_id (index_where pert_id_neg)))
              (mask_and cond_test (isin cell_id (index_where cov_id_neg))) in
    out = loc_set cond "split1" (Str "train") (set_column "split1" split adata).
Proof.
  unfold shrink_back, cell_shrink_cond, cond_test, cell_split1.
  destruct (column "split" adata) as [split|] eqn:Hsp; [|done]. simpl.
  destruct (column "pert_id" adata) as [pert|] eqn:Hp; [|done]. simpl.
  destruct (column "cell_id" adata) as [cov|] eqn:Hc; [|done]. simpl.
  intros [= <-]. by exists split, pert, cov.
Qed.

(** The [split1] entry of every row, from the columns before the fixup. *)
Lemma shrink_back_split1 adata out :
  well_formed adata → shrink_back adata = Some out →
  ∃ split pert_id cell_id split1,
    column "split" adata = Some split ∧
    column "pert_id" adata = Some pert_id ∧
    column "cell_id" adata = Some cell_id ∧
    column "split1" out = Some split1 ∧
    index out = index adata ∧
    (∀ name, name ≠ "split1" → column name out = column name adata) ∧
    length split1 = length split ∧
    ∀ i s p c, split !! i = Some s → pert_id !! i = Some p → cell_id !! i = Some c →
      (s = Str "test" → deficient split pert_id cell_id p c →
         split1 !! i = Some (Str "train")) ∧
      (s = Str "test" → ¬ deficient split pert_id cell_id p c →
         split1 !! i = Some (Str "test")) ∧
      (s ≠ Str "test" → split1 !! i = Some s).
Proof.
  intros Hwf (split & pert & cov & Hsp & Hp & Hc & ->)%shrink_back_Some.
  set (ct := isin split [Str "test"]).
  set (negp := index_where (lt_scalar (value_counts (mask_filter ct pert)) pert_count_treshold)).
  set (negc := index_where (lt_scalar (value_counts (mask_filter ct cov)) cov_count_treshold)).
  set (cond := mask_or _ _).
  exists split, pert, cov, (mask_assign cond (Str "train") split).
  pose proof (Hwf _ _ Hsp) as Lsp. pose proof (Hwf _ _ Hp) as Lp.
  pose proof (Hwf _ _ Hc) as Lc.
  assert (length cond = length split) as Lcond.
  { unfold cond, mask_or, mask_and, ct.
    rewrite !length_zip_with, !length_isin. lia. }
  split_and!; try done.
  - unfold loc_set. rewrite column_set_column_eq. simpl.
    by rewrite column_set_column_eq.
  - intros name Hname. by rewrite column_loc_set_ne, column_set_column_ne.
  - rewrite length_mask_assign. lia.
  - intros i s p c Hs Hpi Hci.
    assert (cond !! i = Some (bool_decide (s = Str "test") &&
              (bool_decide (p ∈ negp) || bool_decide (c ∈ negc)))) as Hcond.
    { unfold cond, mask_or, mask_and. rewrite !lookup_zip_with.
      unfold ct. rewrite (lookup_isin _ _ _ _ Hs), (lookup_isin _ _ _ _ Hpi),
        (lookup_isin _ _ _ _ Hci). simpl. f_equal.
      rewrite (bool_decide_ext (s ∈ [Str "test"]) (s = Str "test"))
        by apply list_elem_of_singleton.
      by destruct (bool_decide (s = _)), (bool_decide (p ∈ _)), (bool_decide (c ∈ _)). }
    rewrite (lookup_mask_assign _ _ _ _ _ _ Hcond Hs).
    assert (s = Str "test" →
            (p ∈ negp ↔ p ≠ NaN ∧ group_count split pert (Str "test") p < pert_count_treshold) ∧
            (c ∈ negc ↔ c ≠ NaN ∧ group_count split cov (Str "test") c < cov_count_treshold))
      as Hneg.
    { intros ->. unfold negp, negc. rewrite !elem_of_index_where.
      unfold ct. rewrite !count_of_group.
      assert (isin split [Str "test"] !! i = Some true) as Hm.
      { rewrite (lookup_isin _ _ _ _ Hs).
        by rewrite bool_decide_eq_true_2 by apply list_elem_of_here. }
      pose proof (elem_of_mask_filter_lookup _ _ _ _ Hm Hpi).
      pose proof (elem_of_mask_filter_lookup _ _ _ _ Hm Hci).
      tauto. }
    split_and!.
    + intros -> Hdef. destruct (Hneg eq_refl) as [Hnp Hnc].
      rewrite bool_decide_eq_true_2 by done. simpl.
      destruct Hdef as [Hd|Hd].
      * apply Hnp in Hd. by rewrite (bool_decide_eq_true_2 _ Hd).
      * apply Hnc in Hd. rewrite (bool_decide_eq_true_2 (c ∈ negc) Hd).
        by rewrite orb_true_r.
    + intros -> Hdef. destruct (Hneg eq_refl) as [Hnp Hnc].
      rewrite (bool_decide_eq_false_2 (p ∈ negp)), (bool_decide_eq_false_2 (c ∈ negc)).
      * by rewrite andb_false_r.
      * intros Hd. apply Hdef. right. by apply Hnc.
      * intros Hd. apply Hdef. left. by apply Hnp.
    + intros Hne. by rewrite bool_decide_eq_false_2.
Qed.

End Splits.
End SplitFacts.

(** ** The shrink-back of the test split *)

Module ShrinkBack.
Import Pandas PandasFacts FrameFacts Lincs SplitFacts Examples.

Section Fixup.
Context `{Libraries}.

(** The same, with the decision spelled as a boolean. *)
Lemma shrink_back_rows adata out :
  well_formed adata → shrink_back adata = Some out →
  ∃ split pert_id cell_id split1,
    column "split" adata = Some split ∧
    column "pert_id" adata = Some pert_id ∧
    column "cell_id" adata = Some cell_id ∧
    column "split1" out = Some split1 ∧
    length pert_id = length split ∧ length cell_id = length split ∧
    length split1 = length split ∧
    ∀ i s p c, split !! i = Some s → pert_id !! i = Some p → cell_id !! i = Some c →
      split1 !! i =
        Some (if bool_decide (s = Str "test" ∧ deficient split pert_id cell_id p c)
              then Str "train" else s).
Proof.
  intros Hwf Hsb.
  destruct (shrink_back_split1 _ _ Hwf Hsb)
    as (split & pert & cov & split1 & Hsp & Hp & Hc & Hs1 & _ & _ & Hlen & Hrows).
  exists split, pert, cov, split1. split_and!; try done.
  - apply Hwf in Hsp, Hp. congruence.
  - apply Hwf in Hsp, Hc. congruence.
  - intros i s p c Hs Hpi Hci.
    destruct (Hrows i s p c Hs Hpi Hci) as (Ht & Hk & Hn).
    case_bool_decide as Hb.
    + destruct Hb as [-> Hd]. by apply Ht.
    + destruct (decide (s = Str "test")) as [->|Hne]; [|by apply Hn].
      apply Hk; [done|]. intros Hd. by apply Hb.
Qed.

(** C8.  The fixup writes the column [split1] and nothing else: the row
    labels and every other column, [split] among them, are what they were;
    [split1] has an entry for every row, equal to the row's [split] entry or
    to ['train']. *)
Theorem shrink_back_writes_split1_only adata out :
  well_formed adata → shrink_back adata = Some out →
  index out = index adata ∧
  (∀ name, name ≠ "split1"%string → column name out = column name adata) ∧
  ∃ split split1,
    column "split" adata = Some split ∧
    column "split" out = Some split ∧
    column "split1" out = Some split1 ∧
    length split1 = length split ∧
    ∀ i s, split !! i = Some s →
      split1 !! i = Some s ∨ split1 !! i = Some (Str "train").
Proof.
  intros Hwf Hsb.
  destruct (shrink_back_split1 _ _ Hwf Hsb)
    as (? & ? & ? & ? & _ & _ & _ & _ & Hidx & Hframe & _).
  destruct (shrink_back_rows _ _ Hwf Hsb)
    as (split' & pert' & cov' & split1' & Hsp' & Hp' & Hc' & Hs1' & Lp & Lc & Hlen & Hrows).
  split_and!; [done..|].
  exists split', split1'. split_and!; try done.
  - by rewrite Hframe.
  - intros i s Hs. pose proof (lookup_lt_Some _ _ _ Hs) as Hi.
    destruct (lookup_lt_is_Some_2 pert' i) as [p Hpi]; [lia|].
    destruct (lookup_lt_is_Some_2 cov' i) as [c Hci]; [lia|].
    rewrite (Hrows i s p c Hs Hpi Hci). case_bool_decide; auto.
Qed.

(** C9.  Only rows whose label in [split] is ['test'] can be relabelled: a
    row with any other label, ['ood'] and ['train'] in particular, has that
    same label in [split1]. *)
Theorem shrink_back_touches_test_only adata out :
  well_formed adata → shrink_back adata = Some out →
  ∃ split split1,
    column "split" adata = Some split ∧
    column "split1" out = Some split1 ∧
    (∀ i s, split !! i = Some s → s ≠ Str "test" → split1 !! i = Some s) ∧
    (∀ i, split !! i = Some (Str "ood") → split1 !! i = Some (Str "ood")) ∧
    (∀ i, split !! i = Some (Str "train") → split1 !! i = Some (Str "train")) ∧
    (∀ i s, split !! i = Some s → split1 !! i ≠ Some s → s = Str "test").
Proof.
  intros Hwf Hsb.
  destruct (shrink_back_rows _ _ Hwf Hsb)
    as (split & pert & cov & split1 & Hsp & Hp & Hc & Hs1 & Lp & Lc & _ & Hrows).
  exists split, split1.
  assert (∀ i s, split !! i = Some s → s ≠ Str "test" → split1 !! i = Some s)
    as Hkeep.
  { intros i s Hs Hne. pose proof (lookup_lt_Some _ _ _ Hs) as Hi.
    destruct (lookup_lt_is_Some_2 pert i) as [p Hpi]; [lia|].
    destruct (lookup_lt_is_Some_2 cov i) as [c Hci]; [lia|].
    rewrite (Hrows i s p c Hs Hpi Hci).
    rewrite bool_decide_eq_false_2; [done|]. by intros [? _]. }
  split_and!; try done.
  - intros i Hs. by apply Hkeep.
  - intros i Hs. by apply Hkeep.
  - intros i s Hs Hch. destruct (decide (s = Str "test")); [done|].
    destruct Hch. by apply Hkeep.
Qed.

(** C3, as the notebook has it.  The fixup changes the label of a row,
    to ['train'], exactly when the row is in the test split and its
    perturbation ([pert_id]) has fewer than 5 rows in the test split or its
    cell type has fewer than 20 rows in the test split, both counts taken
    on [split] as it was before the fixup; every other row keeps its
    label.  The counts are not taken again on [split1]: on [stale_table]
    the rows that stay ['test'] are left with a cell type of 17 rows in
    [split1]. *)
Theorem shrink_back_union_one_pass adata out :
  well_formed adata → shrink_back adata = Some out →
  (∃ split pert_id cell_id split1,
    column "split" adata = Some split ∧
    column "pert_id" adata = Some pert_id ∧
    column "cell_id" adata = Some cell_id ∧
    column "split1" out = Some split1 ∧
    ∀ i s p c, split !! i = Some s →
      pert_id !! i = Some p → cell_id !! i = Some c →
      (s = Str "test" ∧ deficient split pert_id cell_id p c →
       split1 !! i = Some (Str "train")) ∧
      (¬ (s = Str "test" ∧ deficient split pert_id cell_id p c) →
       split1 !! i = Some s) ∧
      (split1 !! i ≠ Some s ↔
       s = Str "test" ∧ deficient split pert_id cell_id p c)) ∧
  (∃ out' cell_id split1,
    shrink_back stale_table = Some out' ∧
    column "cell_id" out' = Some cell_id ∧
    column "split1" out' = Some split1 ∧
    split1 !! 19 = Some (Str "test") ∧
    cell_id !! 19 = Some (Str "A549") ∧
    group_count split1 cell_id (Str "test") (Str "A549") < cov_count_treshold).
Proof.
  intros Hwf Hsb. split.
  - destruct (shrink_back_rows _ _ Hwf Hsb)
      as (split & pert & cov & split1 & Hsp & Hp & Hc & Hs1 & _ & _ & _ & Hrows).
    exists split, pert, cov, split1. split_and!; try done.
    intros i s p c Hs Hpi Hci. rewrite (Hrows i _ p c Hs Hpi Hci).
    case_bool_decide as Hb.
    + split_and!; [done|done|]. split; [done|]. intros _.
      destruct Hb as [-> _]. done.
    + split_and!; [done|done|]. split; [done|]. intros Hd. by destruct Hb.
  - eexists _, _, _. split_and!; [vm_compute; reflexivity..|].
    vm_compute. lia.
Qed.

(** C2, as the notebook has it.  The fixup is applied to the test split
    only: the counts are taken inside the test split along [pert_id] and
    [cell_id], every test row whose perturbation (fewer than 5 rows) or cell
    type (fewer than 20 rows) is short of samples has ['train'] in [split1],
    and the rows of the ood split keep ['ood']. *)
Theorem shrink_back_test_split_only adata out :
  well_formed adata → shrink_back adata = Some out →
  ∃ split pert_id cell_id split1,
    column "split" adata = Some split ∧
    column "pert_id" adata = Some pert_id ∧
    column "cell_id" adata = Some cell_id ∧
    column "split1" out = Some split1 ∧
    (∀ i p c, split !! i = Some (Str "test") →
       pert_id !! i = Some p → cell_id !! i = Some c →
       deficient split pert_id cell_id p c →
       split1 !! i = Some (Str "train")) ∧
    (∀ i, split !! i = Some (Str "ood") → split1 !! i = Some (Str "ood")).
Proof.
  intros Hwf Hsb.
  destruct (shrink_back_rows _ _ Hwf Hsb)
    as (split & pert & cov & split1 & Hsp & Hp & Hc & Hs1 & Lp & Lc & _ & Hrows).
  exists split, pert, cov, split1. split_and!; try done.
  - intros i p c Hs Hpi Hci Hd. rewrite (Hrows i _ p c Hs Hpi Hci).
    by rewrite bool_decide_eq_true_2.
  - intros i Hs. pose proof (lookup_lt_Some _ _ _ Hs) as Hi.
    destruct (lookup_lt_is_Some_2 pert i) as [p Hpi]; [lia|].
    destruct (lookup_lt_is_Some_2 cov i) as [c Hci]; [lia|].
    rewrite (Hrows i _ p c Hs Hpi Hci).
    rewrite bool_decide_eq_false_2; [done|]. by intros [? _].
Qed.

End Fixup.

(** The ood row of [ood_table] has a perturbation with one row and a cell
    type with one row inside the ood split, both under the thresholds, and
    its [split1] entry is still ['ood']. *)
Lemma ood_group_not_shrunk :
  ∃ out split pert_id cell_id split1,
    shrink_back ood_table = Some out ∧
    column "split" ood_table = Some split ∧
    column "pert_id" ood_table = Some pert_id ∧
    column "cell_id" ood_table = Some cell_id ∧
    column "split1" out = Some split1 ∧
    split !! 0 = Some (Str "ood") ∧
    group_count split pert_id (Str "ood") (Str "BRD-O") < pert_count_treshold ∧
    group_count split cell_id (Str "ood") (Str "A549") < cov_count_treshold ∧
    split1 !! 0 ≠ Some (Str "train").
Proof.
  eexists _, _, _, _, _. split_and!; [vm_compute; reflexivity..| | |].
  - vm_compute. lia.
  - vm_compute. lia.
  - vm_compute. done.
Qed.

(** On [twin_table] the first row is a test row whose SMILES string has six
    rows in the test split and whose cell type has twenty, neither under
    its threshold, and the fixup relabels it: its perturbation has three.
    The last row is the one row of its SMILES string in the ood split,
    under the threshold, and it keeps ['ood']. *)
Lemma fixup_counts_pert_id_in_test :
  ∃ out split smiles cell_id split1,
    shrink_back twin_table = Some out ∧
    column "split" twin_table = Some split ∧
    column "canonical_smiles" twin_table = Some smiles ∧
    column "cell_id" twin_table = Some cell_id ∧
    column "split1" out = Some split1 ∧
    (split !! 0 = Some (Str "test") ∧
     smiles !! 0 = Some (Str "CCO") ∧ cell_id !! 0 = Some (Str "A549") ∧
     ¬ group_count split smiles (Str "test") (Str "CCO") < pert_count_treshold ∧
     ¬ group_count split cell_id (Str "test") (Str "A549") < cov_count_treshold ∧
     split1 !! 0 = Some (Str "train")) ∧
    (split !! 20 = Some (Str "ood") ∧ smiles !! 20 = Some (Str "CCC") ∧
     group_count split smiles (Str "ood") (Str "CCC") < pert_count_treshold ∧
     split1 !! 20 = Some (Str "ood")).
Proof.
  eexists _, _, _, _, _.
  do 5 (split; [vm_compute; reflexivity|]). split.
  - split_and!; [vm_compute; reflexivity..| | |vm_compute; reflexivity].
    + vm_compute. lia.
    + vm_compute. lia.
  - split_and!; [vm_compute; reflexivity..| |vm_compute; reflexivity].
    vm_compute. lia.
Qed.

End ShrinkBack.

(** ** The identity-based split *)

Module IdentitySplit.
Import Pandas PandasFacts FrameFacts Lincs FilterFacts SplitFacts.

Section Split.
Context `{Libraries}.

Lemma cell_split_column adata out :
  well_formed adata → has_column "split" adata = false →
  cell_split adata = Some out →
  ∃ smiles drugs_train drugs_val drugs_test,
    column "canonical_smiles" adata = Some smiles ∧
    column "canonical_smiles" out = Some smiles ∧
    index out = index adata ∧
    (split_is_partition →
       drugs_train ++ drugs_val ++ drugs_test ≡ₚ remove_dups smiles) ∧
    ∃ split, column "split" out = Some split ∧ length split = length smiles ∧
      ∀ i c, smiles !! i = Some c →
        split !! i = Some (if bool_decide (c ∈ drugs_test) then Str "ood"
                           else if bool_decide (c ∈ drugs_val) then Str "test"
                           else Str "train").
Proof.
  intros Hwf Hno Hsp.
  destruct (cell_split_new _ _ Hno Hsp)
    as (smiles & us & tr & tmp & va & te & Hsm & Hus & H1 & H2 & ->).
  exists smiles, tr, va, te. pose proof (Hwf _ _ Hsm) as Hlen.
  split_and!; try done.
  - unfold set_scalar.
    by rewrite !column_loc_set_ne, column_set_column_ne.
  - intros Hpart. apply Hpart in H1, H2.
    rewrite <- (np_unique_Permutation _ _ Hus), <- H1. by rewrite H2.
  - exists (mask_assign (isin smiles te) (Str "ood")
              (mask_assign (isin smiles va) (Str "test")
                 (replicate (n_rows adata) (Str "train")))).
    split_and!.
    + unfold loc_set, set_scalar. by rewrite !column_set_column_eq.
    + rewrite !length_mask_assign, !length_isin, length_replicate. lia.
    + intros i c Hc.
      pose proof (lookup_lt_Some _ _ _ Hc) as Hi.
      apply lookup_mask_assign; [by apply lookup_isin|].
      rewrite (lookup_mask_assign _ _ _ _ (bool_decide (c ∈ va)) (Str "train"));
        [done | by apply lookup_isin |].
      apply lookup_replicate_2. lia.
Qed.

(** C1.  When the split cell computes the split, the distinct SMILES strings
    are divided into three groups, every row carries the label of the group
    of its SMILES string, and two rows with the same SMILES string carry one
    and the same label among ['train'], ['test'], ['ood']. *)
Theorem identity_split_by_smiles adata out :
  split_is_partition → well_formed adata →
  has_column "split" adata = false → cell_split adata = Some out →
  ∃ smiles split drugs_train drugs_val drugs_test,
    column "canonical_smiles" out = Some smiles ∧
    column "split" out = Some split ∧
    length split = length smiles ∧
    drugs_train ++ drugs_val ++ drugs_test ≡ₚ remove_dups smiles ∧
    (∀ i c, smiles !! i = Some c →
       (c ∈ drugs_train → split !! i = Some (Str "train")) ∧
       (c ∈ drugs_val → split !! i = Some (Str "test")) ∧
       (c ∈ drugs_test → split !! i = Some (Str "ood"))) ∧
    (∀ i j c, smiles !! i = Some c → smiles !! j = Some c →
       ∃ label, split !! i = Some label ∧ split !! j = Some label ∧
                label ∈ [Str "train"; Str "test"; Str "ood"]).
Proof.
  intros Hpart Hwf Hno Hsp.
  destruct (cell_split_column _ _ Hwf Hno Hsp)
    as (smiles & tr & va & te & _ & Hsm & _ & Hperm & split & Hsplit & Hlen & Hrows).
  specialize (Hperm Hpart).
  exists smiles, split, tr, va, te. split_and!; try done.
  - assert (NoDup (tr ++ va ++ te)) as Hnd.
    { rewrite Hperm. apply NoDup_remove_dups. }
    apply NoDup_app in Hnd as (_ & Htr & Hnd).
    apply NoDup_app in Hnd as (_ & Hva & _).
    intros i c Hc. rewrite (Hrows i c Hc). split_and!.
    + intros Hin. specialize (Htr _ Hin). rewrite elem_of_app in Htr.
      rewrite !bool_decide_eq_false_2; [done|tauto..].
    + intros Hin. specialize (Hva _ Hin).
      rewrite bool_decide_eq_false_2 by done.
      by rewrite bool_decide_eq_true_2.
    + intros Hin. by rewrite bool_decide_eq_true_2.
  - intros i j c Hi Hj. eexists. split_and!; [by apply Hrows..|].
    repeat case_bool_decide; set_solver.
Qed.

End Split.
End IdentitySplit.

(** ** Rows from load to write *)

Module RowFacts.
Import Pandas PandasFacts FrameFacts Lincs FilterFacts MergeFacts SplitFacts Examples.

Section Rows.
Context `{Libraries}.

(** A filter cell keeps a sub-sequence of the rows; the columns other than
    [canonical_smiles] are cut by the same mask as the index. *)
Lemma filter_cell_mask a b :
  cell_invalid_smiles a = Some b ∨ cell_pert_dose a = Some b ∨
  cell_replicates a = Some b ∨ cell_rdkit a = Some b →
  ∃ mask, index b = mask_filter mask (index a) ∧
    ∀ name, name ≠ "canonical_smiles"%string →
      column name b = mask_filter mask <$> column name a.
Proof.
  intros [Hc|[Hc|[Hc|Hc]]].
  - apply cell_invalid_smiles_Some in Hc as (smiles & _ & ->).
    eexists. split; [done|]. intros name Hname.
    by rewrite column_select, column_set_column_ne.
  - apply cell_pert_dose_Some in Hc as (dose & _ & ->).
    eexists. split; [done|]. intros name _. apply column_select.
  - apply cell_replicates_Some in Hc as (smiles & _ & ->).
    eexists. split; [done|]. intros name _. apply column_select.
  - apply cell_rdkit_Some in Hc as (smiles & _ & -> & _).
    eexists. split; [done|]. intros name _. apply column_select.
Qed.

Lemma filter_cell_rows a b name col :
  cell_invalid_smiles a = Some b ∨ cell_pert_dose a = Some b ∨
  cell_replicates a = Some b ∨ cell_rdkit a = Some b →
  name ≠ "canonical_smiles"%string → column name a = Some col →
  ∃ col', column name b = Some col' ∧
    zip (index b) col' `sublist_of` zip (index a) col.
Proof.
  intros (mask & Hidx & Hcols)%filter_cell_mask Hname Hcol.
  exists (mask_filter mask col). split.
  - by rewrite Hcols, Hcol.
  - rewrite Hidx, <- mask_filter_zip. apply mask_filter_sublist.
Qed.

Lemma filters_rows a b name col :
  filters a = Some b →
  name ≠ "canonical_smiles"%string → column name a = Some col →
  ∃ col', column name b = Some col' ∧
    zip (index b) col' `sublist_of` zip (index a) col.
Proof.
  intros (a1 & a2 & a3 & H1 & H2 & H3 & H4)%filters_Some Hname Hcol.
  destruct (filter_cell_rows a a1 name col) as (c1 & Hc1 & S1); [tauto|done..|].
  destruct (filter_cell_rows a1 a2 name c1) as (c2 & Hc2 & S2); [tauto|done..|].
  destruct (filter_cell_rows a2 a3 name c2) as (c3 & Hc3 & S3); [tauto|done..|].
  destruct (filter_cell_rows a3 b name c3) as (c4 & Hc4 & S4); [tauto|done..|].
  exists c4. split; [done|]. by rewrite S4, S3, S2.
Qed.

Lemma filters_index a b : filters a = Some b → index b `sublist_of` index a.
Proof.
  intros (a1 & a2 & a3 & H1 & H2 & H3 & H4)%filters_Some.
  destruct (filter_cell_mask a a1) as (m1 & E1 & _); [tauto|].
  destruct (filter_cell_mask a1 a2) as (m2 & E2 & _); [tauto|].
  destruct (filter_cell_mask a2 a3) as (m3 & E3 & _); [tauto|].
  destruct (filter_cell_mask a3 b) as (m4 & E4 & _); [tauto|].
  rewrite E4, E3, E2, E1.
  do 3 (etrans; [apply mask_filter_sublist|]). apply mask_filter_sublist.
Qed.

Lemma shrink_back_frame a b :
  shrink_back a = Some b →
  index b = index a ∧
  ∀ name, name ≠ "split1"%string → column name b = column name a.
Proof.
  intros (split & pert & cov & _ & _ & _ & ->)%shrink_back_Some.
  split; [done|]. intros name Hname.
  by rewrite column_loc_set_ne, column_set_column_ne.
Qed.

Lemma loc_set_labels_frame labels name v a b :
  loc_set_labels labels name v a = Some b →
  index b = index a ∧ ∀ name', name' ≠ name → column name' b = column name' a.
Proof.
  unfold loc_set_labels. case_bool_decide; [|done]. intros [= <-].
  split; [done|]. intros name' Hname. by rewrite column_loc_set_ne.
Qed.

Lemma cell_random_split_frame a b :
  cell_random_split a = Some b →
  index b = index a ∧
  ∀ name, name ≠ "random_split"%string → column name b = column name a.
Proof.
  unfold cell_random_split.
  destruct (train_test_split (index a) _ _) as [[tr tmp]|]; [|done]. simpl.
  destruct (train_test_split tmp _ _) as [[va te]|]; [|done]. simpl.
  destruct (loc_set_labels tr _ _ _) as [a1|] eqn:H1; [|done]. simpl.
  destruct (loc_set_labels va _ _ _) as [a2|] eqn:H2; [|done]. simpl.
  intros H3.
  apply loc_set_labels_frame in H1 as [I1 C1], H2 as [I2 C2], H3 as [I3 C3].
  split; [by rewrite I3, I2, I1|]. intros name Hname.
  rewrite C3, C2, C1 by done. unfold set_scalar.
  by rewrite column_set_column_ne.
Qed.

Lemma cell_split_index a b : cell_split a = Some b → index b = index a.
Proof.
  destruct (has_column "split" a) eqn:Hs.
  - rewrite cell_split_existing by done. by intros [= <-].
  - intros Hc. by destruct (cell_split_new _ _ Hs Hc)
      as (? & ? & ? & ? & ? & ? & _ & _ & _ & _ & ->).
Qed.

Lemma splits_Some a b :
  splits a = Some b →
  ∃ a1 a2, cell_split a = Some a1 ∧ shrink_back a1 = Some a2 ∧
           cell_random_split a2 = Some b.
Proof.
  unfold splits.
  destruct (cell_split a) as [a1|] eqn:H1; [|done]. simpl.
  destruct (shrink_back a1) as [a2|] eqn:H2; [|done]. simpl.
  intros H3. by exists a1, a2.
Qed.

Lemma splits_index a b : splits a = Some b → index b = index a.
Proof.
  intros (a1 & a2 & H1 & H2 & H3)%splits_Some.
  apply cell_split_index in H1. apply shrink_back_frame in H2 as [H2 _].
  apply cell_random_split_frame in H3 as [H3 _]. congruence.
Qed.

Lemma splits_keep_split a b :
  has_column "split" a = true → splits a = Some b →
  column "split" b = column "split" a.
Proof.
  intros Hs (a1 & a2 & H1 & H2 & H3)%splits_Some.
  rewrite cell_split_existing in H1 by done. injection H1 as <-.
  apply shrink_back_frame in H2 as [_ H2].
  apply cell_random_split_frame in H3 as [_ H3].
  by rewrite H3, H2.
Qed.

Lemma notebook_Some reference_df adata out :
  notebook reference_df adata = Some out →
  ∃ ids merged filtered,
    pert_id_unique adata = Some ids ∧
    cell_merge (restrict_reference ids reference_df) adata = Some merged ∧
    filters merged = Some filtered ∧ splits filtered = Some out.
Proof.
  unfold notebook.
  destruct (pert_id_unique adata) as [ids|] eqn:H0; [|done]. simpl.
  destruct (cell_merge _ adata) as [merged|] eqn:H1; [|done]. simpl.
  destruct (filters merged) as [filtered|] eqn:H2; [|done]. simpl.
  intros H3. by exists ids, merged, filtered.
Qed.

(** The cells keep every column as long as the index. *)
Lemma filter_cell_well_formed a b :
  well_formed a →
  cell_invalid_smiles a = Some b ∨ cell_pert_dose a = Some b ∨
  cell_replicates a = Some b ∨ cell_rdkit a = Some b →
  well_formed b.
Proof.
  intros Hwf [Hc|[Hc|[Hc|Hc]]].
  - apply cell_invalid_smiles_Some in Hc as (smiles & Hsm & ->).
    pose proof (Hwf _ _ Hsm) as Hlen.
    apply well_formed_select.
    + apply well_formed_set_column; [done|].
      unfold astype_str. by rewrite length_fmap.
    + unfold mask_not, astype_str. by rewrite length_fmap, length_isin, length_fmap.
  - apply cell_pert_dose_Some in Hc as (dose & Hd & ->).
    apply well_formed_select; [done|].
    unfold mask_not. rewrite length_fmap, length_isin. by apply Hwf in Hd.
  - apply cell_replicates_Some in Hc as (smiles & Hsm & ->).
    apply well_formed_select; [done|].
    rewrite length_isin. by apply Hwf in Hsm.
  - apply cell_rdkit_Some in Hc as (smiles & Hsm & -> & _).
    apply well_formed_select; [done|].
    rewrite length_fmap. by apply Hwf in Hsm.
Qed.

Lemma filters_well_formed a b :
  well_formed a → filters a = Some b → well_formed b.
Proof.
  intros Hwf (a1 & a2 & a3 & H1 & H2 & H3 & H4)%filters_Some.
  eapply filter_cell_well_formed; [|right; right; right; exact H4].
  eapply filter_cell_well_formed; [|right; right; left; exact H3].
  eapply filter_cell_well_formed; [|right; left; exact H2].
  eapply filter_cell_well_formed; [exact Hwf|left; exact H1].
Qed.

Lemma cell_split_well_formed a b :
  well_formed a → cell_split a = Some b → well_formed b.
Proof.
  intros Hwf. destruct (has_column "split" a) eqn:Hs.
  - rewrite cell_split_existing by done. by intros [= <-].
  - intros Hc. destruct (cell_split_new _ _ Hs Hc)
      as (smiles & ? & ? & ? & va & te & Hsm & _ & _ & _ & ->).
    pose proof (Hwf _ _ Hsm) as Hlen.
    unfold loc_set, set_scalar. rewrite !column_set_column_eq. simpl.
    repeat apply well_formed_set_column; try done.
    + by rewrite length_replicate.
    + rewrite length_mask_assign, length_isin, length_replicate.
      unfold n_rows in *. simpl. lia.
    + rewrite !length_mask_assign, !length_isin, length_replicate.
      unfold n_rows in *. simpl. lia.
Qed.

(** The table the shrink-back is run on in the notebook is well formed when
    the loaded one is. *)
Lemma notebook_shrink_back_input reference_df adata out :
  well_formed adata → notebook reference_df adata = Some out →
  ∃ a a', well_formed a ∧ shrink_back a = Some a' ∧
          cell_random_split a' = Some out.
Proof.
  intros Hwf (ids & merged & filtered & _ & Hm & Hf & Hs)%notebook_Some.
  apply splits_Some in Hs as (a1 & a2 & H1 & H2 & H3).
  exists a1, a2. split_and!; [|done..].
  eapply cell_split_well_formed; [|exact H1].
  eapply filters_well_formed; [|exact Hf].
  by eapply cell_merge_well_formed.
Qed.

(** C10.  With a [split] column present, the split cell returns the table
    as it is, and the [split] column of the table that is written is the
    loaded one on the rows that are kept: the pairs of row label and [split]
    entry at the end are a sub-sequence of the pairs at load. *)
Theorem existing_split_carried_through reference_df adata out split :
  well_formed adata → column "split" adata = Some split →
  notebook reference_df adata = Some out →
  (∀ a, has_column "split" a = true → cell_split a = Some a) ∧
  ∃ split_out, column "split" out = Some split_out ∧
    zip (index out) split_out `sublist_of` zip (index adata) split.
Proof.
  intros Hwf Hsplit (ids & merged & filtered & _ & Hm & Hf & Hs)%notebook_Some.
  split; [apply cell_split_existing|].
  pose proof (cell_merge_keeps_column _ _ _ _ _ Hwf Hm Hsplit) as Hsplit'.
  pose proof (cell_merge_index _ _ _ Hwf Hm) as Hidx.
  destruct (filters_rows _ _ "split" split Hf) as (col & Hcol & Hsub);
    [done..|].
  exists col. split.
  - rewrite (splits_keep_split filtered out); [done| |done].
    apply has_column_true. by rewrite Hcol.
  - by rewrite (splits_index _ _ Hs), <- Hidx.
Qed.

(** C5, with the merge cell as it is written.  The merge cell goes through
    exactly when the table has a join column and no row matches two
    reference rows (the left join then has one row for every row of the
    table; otherwise it has more, and AnnData refuses it).  When it goes
    through it returns the loaded rows, in order, with the columns they had,
    and on a table that had no [canonical_smiles] column the new column
    holds the value of the reference row with the key, a missing value
    where there is none.  Every filter cell returns a sub-sequence of the
    rows it is given, the split cells keep the rows, so a table that is
    written has a sub-sequence of the loaded rows. *)
Theorem rows_never_added reference_df adata :
  well_formed adata →
  (is_Some (cell_merge reference_df adata) ↔
   (is_Some (column "pert_id" adata) ∨
    is_Some (column "canonical_smiles" adata)) ∧
   Forall (λ jk, length (matches jk reference_df) ≤ 1)
     (join_keys "pert_id" "canonical_smiles" adata)) ∧
  (∀ merged, cell_merge reference_df adata = Some merged →
     index merged = index adata ∧
     (∀ name col, column name adata = Some col →
        column name merged = Some col) ∧
     (∀ keys, column "pert_id" adata = Some keys →
        column "canonical_smiles" adata = None →
        column "canonical_smiles" merged
        = Some (joined_value reference_df <$> keys))) ∧
  (∀ a b, cell_invalid_smiles a = Some b ∨ cell_pert_dose a = Some b ∨
          cell_replicates a = Some b ∨ cell_rdkit a = Some b →
     index b `sublist_of` index a ∧ n_rows b ≤ n_rows a) ∧
  (∀ a b, splits a = Some b → index b = index a) ∧
  (∀ out, notebook reference_df adata = Some out →
     index out `sublist_of` index adata ∧ n_rows out ≤ n_rows adata).
Proof.
  intros Hwf. split_and!.
  - by apply cell_merge_is_Some.
  - intros merged Hm. split_and!.
    + by eapply cell_merge_index.
    + intros name col. by eapply cell_merge_keeps_column.
    + intros keys Hkeys Hnone.
      rewrite (cell_merge_new_column _ _ _ _ Hwf Hkeys Hnone Hm).
      by rewrite column_set_column_eq.
  - intros a b (mask & Hidx & _)%filter_cell_mask. unfold n_rows.
    rewrite Hidx. split.
    + apply mask_filter_sublist.
    + apply length_mask_filter_le.
  - apply splits_index.
  - intros out (ids & merged & filtered & _ & Hm & Hf & Hs)%notebook_Some.
    pose proof (cell_merge_index _ _ _ Hwf Hm) as Hidx.
    assert (index out `sublist_of` index adata) as Hsub.
    { rewrite (splits_index _ _ Hs), <- Hidx. by apply filters_index in Hf. }
    split; [done|]. by apply sublist_length.
Qed.

(** The left merge of [dup_obs], one row, with [dup_reference] has two rows,
    and the merge cell stops on it. *)
Lemma left_join_adds_rows :
  ∃ merged,
    merge_left "pert_id" "canonical_smiles" dup_obs dup_reference = Some merged ∧
    n_rows dup_obs = 1 ∧ n_rows merged = 2 ∧
    index merged = ["obs_0"; "obs_0"]%string ∧
    cell_merge dup_reference dup_obs = None.
Proof. eexists. split_and!; vm_compute; reflexivity. Qed.


End Rows.


End RowFacts.

(** ** The embedding loop *)

Module EmbeddingFacts.
Import Embeddings Examples.

Section Loop.
Context `{Env}.

Lemma run_app before after st :
  run (before ++ after) st =
  match run before st with
  | (st', Returned) => run after st'
  | (st', Raised text) => (st', Raised text)
  end.
Proof.
  revert st. induction before as [|item before IH]; intros st; [done|].
  simpl. destruct (body item st) as [st' []]; [apply IH | done].
Qed.


(** As long as [os.makedirs] does not raise, the loop goes through the whole
    list whatever the calls of [compute_rdkit_embeddings] do, and what it
    writes are the lines of the failed datasets, in order. *)
Lemma run_goes_through items st :
  (∀ path w, (makedirs path w).2 = Returned) →
  (run items st).2 = Returned ∧
  written (run items st).1 = written st ++ error_lines items (world st).
Proof.
  intros Hmk. revert st. induction items as [|[dataset key] items IH]; intros st.
  { simpl. by rewrite app_nil_r. }
  simpl. specialize (Hmk (dirname (output_path dataset)) (world st)).
  destruct (makedirs _ (world st)) as [w o]. simpl in Hmk. subst o. simpl.
  destruct (compute_rdkit_embeddings _ _ _ w) as [w' [|text]].
  - apply (IH (mkState w' (written st))).
  - destruct (IH (mkState w' (written st ++ [error_line dataset text])))
      as [Hr Hw].
    split; [done|]. rewrite Hw. simpl. by rewrite <- app_assoc.
Qed.

End Loop.


End EmbeddingFacts.

(** ** The theorems on the small tables *)

Module Runs.
Import Pandas PandasFacts FrameFacts Lincs Embeddings Examples.
Import FilterFacts MergeFacts SplitFacts ShrinkBack IdentitySplit RowFacts.
Import EmbeddingFacts.

(** Well-formedness of a given table is decided by running over its
    columns. *)
Lemma well_formed_map_Forall df :
  map_Forall (λ _ col, length col = n_rows df) (columns df) → well_formed df.
Proof. done. Qed.

Ltac by_evaluation := apply (bool_decide_unpack _); vm_compute; exact I.

Lemma cut_split_partition : @split_is_partition small_libraries.
Proof.
  intros A arr test_size random_state train test. simpl. unfold cut_split.
  case_bool_decide; [done|]. intros [= <- <-]. by rewrite take_drop.
Qed.

(** The split cell on [fresh_small]: six compounds, twelve rows. *)
Lemma identity_split_by_smiles_run :
  ∃ out,
    @cell_split small_libraries fresh_small = Some out ∧
    ∃ smiles split drugs_train drugs_val drugs_test,
      column "canonical_smiles" out = Some smiles ∧
      column "split" out = Some split ∧
      length split = length smiles ∧
      drugs_train ++ drugs_val ++ drugs_test ≡ₚ remove_dups smiles ∧
      (∀ i c, smiles !! i = Some c →
         (c ∈ drugs_train → split !! i = Some (Str "train")) ∧
         (c ∈ drugs_val → split !! i = Some (Str "test")) ∧
         (c ∈ drugs_test → split !! i = Some (Str "ood"))) ∧
      (∀ i j c, smiles !! i = Some c → smiles !! j = Some c →
         ∃ label, split !! i = Some label ∧ split !! j = Some label ∧
                  label ∈ [Str "train"; Str "test"; Str "ood"]).
Proof.
  eexists. split; [vm_compute; reflexivity|].
  apply (@identity_split_by_smiles small_libraries fresh_small).
  - exact cut_split_partition.
  - apply well_formed_map_Forall. by_evaluation.
  - vm_compute. reflexivity.
  - vm_compute. reflexivity.
Defined.

(** The fixup on [ood_table]. *)
Lemma shrink_back_test_split_only_run :
  ∃ out,
    shrink_back ood_table = Some out ∧
    ∃ split pert_id cell_id split1,
      column "split" ood_table = Some split ∧
      column "pert_id" ood_table = Some pert_id ∧
      column "cell_id" ood_table = Some cell_id ∧
      column "split1" out = Some split1 ∧
      (∀ i p c, split !! i = Some (Str "test") →
         pert_id !! i = Some p → cell_id !! i = Some c →
         deficient split pert_id cell_id p c →
         split1 !! i = Some (Str "train")) ∧
      (∀ i, split !! i = Some (Str "ood") → split1 !! i = Some (Str "ood")).
Proof.
  eexists. split; [vm_compute; reflexivity|].
  apply (shrink_back_test_split_only ood_table).
  - apply well_formed_map_Forall. by_evaluation.
  - vm_compute. reflexivity.
Defined.

(** The fixup on [twin_table]. *)
Lemma shrink_back_union_one_pass_run :
  ∃ out,
    shrink_back twin_table = Some out ∧
    ∃ split pert_id cell_id split1,
      column "split" twin_table = Some split ∧
      column "pert_id" twin_table = Some pert_id ∧
      column "cell_id" twin_table = Some cell_id ∧
      column "split1" out = Some split1 ∧
      ∀ i s p c, split !! i = Some s →
        pert_id !! i = Some p → cell_id !! i = Some c →
        (s = Str "test" ∧ deficient split pert_id cell_id p c →
         split1 !! i = Some (Str "train")) ∧
        (¬ (s = Str "test" ∧ deficient split pert_id cell_id p c) →
         split1 !! i = Some s) ∧
        (split1 !! i ≠ Some s ↔
         s = Str "test" ∧ deficient split pert_id cell_id p c).
Proof.
  eexists. split; [vm_compute; reflexivity|].
  apply (shrink_back_union_one_pass twin_table).
  - apply well_formed_map_Forall. by_evaluation.
  - vm_compute. reflexivity.
Defined.

(** The filter cells on [joined_small]: eight of the eleven rows are left. *)
Lemma retained_rows_valid_run :
  ∃ out,
    @filters small_libraries joined_small = Some out ∧
    ∃ smiles pert_dose,
      column "canonical_smiles" out = Some smiles ∧
      column "pert_dose" out = Some pert_dose ∧
      (∀ i c, smiles !! i = Some c →
         ∃ s m, c = Str s ∧ (c ∉ sentinels) ∧
                @MolFromSmiles small_libraries s = Some m ∧
                @SanitizeMol small_libraries m = true ∧
                min_replicates ≤ count_of c smiles) ∧
      (∀ i d, pert_dose !! i = Some d → d ≠ dose_sentinel).
Proof.
  eexists. split; [vm_compute; reflexivity|].
  apply (@retained_rows_valid small_libraries joined_small).
  vm_compute. reflexivity.
Defined.

(** The notebook on [lincs_small] with [reference_small]: it runs to the
    end and writes a sub-sequence of the loaded rows. *)
Lemma rows_never_added_run :
  ∃ out,
    @notebook small_libraries reference_small lincs_small = Some out ∧
    index out `sublist_of` index lincs_small ∧
    n_rows out ≤ n_rows lincs_small.
Proof.
  eexists. split; [vm_compute; reflexivity|].
  apply (@rows_never_added small_libraries reference_small lincs_small).
  - apply well_formed_map_Forall. by_evaluation.
  - vm_compute. reflexivity.
Defined.



(** The fixup on [lincs_small]: [split] is left as loaded. *)
Lemma shrink_back_writes_split1_only_run :
  ∃ out,
    shrink_back lincs_small = Some out ∧
    index out = index lincs_small ∧
    (∀ name, name ≠ "split1"%string → column name out = column name lincs_small) ∧
    ∃ split split1,
      column "split" lincs_small = Some split ∧
      column "split" out = Some split ∧
      column "split1" out = Some split1 ∧
      length split1 = length split ∧
      ∀ i s, split !! i = Some s →
        split1 !! i = Some s ∨ split1 !! i = Some (Str "train").
Proof.
  eexists. split; [vm_compute; reflexivity|].
  apply (shrink_back_writes_split1_only lincs_small).
  - apply well_formed_map_Forall. by_evaluation.
  - vm_compute. reflexivity.
Defined.

(** The fixup on [lincs_small]: the ood row and the train rows keep their
    label. *)
Lemma shrink_back_touches_test_only_run :
  ∃ out,
    shrink_back lincs_small = Some out ∧
    ∃ split split1,
      column "split" lincs_small = Some split ∧
      column "split1" out = Some split1 ∧
      (∀ i s, split !! i = Some s → s ≠ Str "test" → split1 !! i = Some s) ∧
      (∀ i, split !! i = Some (Str "ood") → split1 !! i = Some (Str "ood")) ∧
      (∀ i, split !! i = Some (Str "train") → split1 !! i = Some (Str "train")) ∧
      (∀ i s, split !! i = Some s → split1 !! i ≠ Some s → s = Str "test").
Proof.
  eexists. split; [vm_compute; reflexivity|].
  apply (shrink_back_touches_test_only lincs_small).
  - apply well_formed_map_Forall. by_evaluation.
  - vm_compute. reflexivity.
Defined.

(** The notebook on [lincs_small], which is loaded with a [split] column. *)
Lemma existing_split_carried_through_run :
  ∃ out split,
    column "split" lincs_small = Some split ∧
    @notebook small_libraries reference_small lincs_small = Some out ∧
    (∀ a, has_column "split" a = true → @cell_split small_libraries a = Some a) ∧
    ∃ split_out, column "split" out = Some split_out ∧
      zip (index out) split_out `sublist_of` zip (index lincs_small) split.
Proof.
  eexists _, _.
  split; [vm_compute; reflexivity|]. split; [vm_compute; reflexivity|].
  apply (@existing_split_carried_through small_libraries reference_small
           lincs_small).
  - apply well_formed_map_Forall. by_evaluation.
  - vm_compute. reflexivity.
  - vm_compute. reflexivity.
Defined.

End Runs.

(** * Further properties of the notebooks *)

(** ** [remove_invalid_smiles] and the filter cells, run again *)

Module FilterAgain.
Import Pandas PandasFacts FrameFacts Lincs FilterFacts RowFacts.

Lemma mask_filter_all_true {A} (m : list bool) (l : list A) :
  Forall (λ b, b = true) m → length l ≤ length m → mask_filter m l = l.
Proof.
  intros Hm. revert l.
  induction Hm as [|b m -> _ IH]; intros [|x l] Hlen; simpl in *;
    try done; try lia.
  f_equal. apply IH. lia.
Qed.

Lemma select_all_true mask df :
  well_formed df → Forall (λ b, b = true) mask → length mask = n_rows df →
  select mask df = df.
Proof.
  intros Hwf Hm Hlen. destruct df as [idx cols]. unfold select. simpl.
  unfold n_rows in *. simpl in *. f_equal.
  - apply mask_filter_all_true; [done | lia].
  - apply map_eq. intros name. rewrite lookup_fmap.
    destruct (cols !! name) as [col|] eqn:Hcol; [|done]. simpl. f_equal.
    apply mask_filter_all_true; [done|].
    apply Hwf in Hcol. unfold n_rows in Hcol. simpl in Hcol. lia.
Qed.

Lemma isin_all_true col values :
  Forall (λ c, c ∈ values) col → Forall (λ b, b = true) (isin col values).
Proof.
  intros Hall. unfold isin. apply Forall_fmap.
  eapply Forall_impl; [exact Hall|]. intros c Hc. simpl.
  by apply bool_decide_eq_true.
Qed.

Lemma not_isin_all_true col values :
  Forall (λ c, c ∉ values) col →
  Forall (λ b, b = true) (mask_not (isin col values)).
Proof.
  intros Hall. unfold mask_not, isin. rewrite <- list_fmap_compose.
  apply Forall_fmap. eapply Forall_impl; [exact Hall|]. intros c Hc. simpl.
  by rewrite bool_decide_eq_false_2.
Qed.

Lemma astype_str_strings float_str col :
  Forall (λ c, is_str c = true) col → astype_str float_str col = col.
Proof.
  intros Hall. unfold astype_str.
  induction Hall as [|c col Hc _ IH]; [done|].
  rewrite fmap_cons, IH. by destruct c.
Qed.

Lemma set_column_same name col df :
  column name df = Some col → set_column name col df = df.
Proof.
  intros Hcol. destruct df as [idx cols]. unfold set_column, column in *.
  simpl in *. f_equal. by apply insert_id.
Qed.

Section Again.
Context `{Libraries}.

(** The two modes of [remove_invalid_smiles] compute the same mask. *)
Lemma remove_invalid_smiles_modes df key :
  remove_invalid_smiles df key false =
  r ← remove_invalid_smiles df key true;
  match r with
  | inl cond => Some (inr (getitem_applied cond df))
  | inr out => Some (inr out)
  end.
Proof.
  unfold remove_invalid_smiles.
  destruct (column key df) as [col|]; [|done]. simpl.
  destruct (np_unique col) as [us|]; [|done]. simpl.
  destruct (mapM check_cell us) as [vs|]; [|done]. simpl.
  by destruct (mapM _ col).
Qed.

Lemma remove_invalid_smiles_strings df key col :
  column key df = Some col → Forall (λ c, is_str c = true) col →
  remove_invalid_smiles df key true = Some (inl (valid_cell <$> col)).
Proof.
  intros Hcol Hstr. unfold remove_invalid_smiles. rewrite Hcol. simpl.
  assert (np_unique col = Some (merge_sort cell_le (remove_dups col))) as Hus.
  { unfold np_unique. rewrite (proj2 (forallb_forall _ _)); [done|].
    intros c Hc%list_elem_of_In. by eapply Forall_forall in Hstr. }
  rewrite Hus. simpl. set (us := merge_sort cell_le (remove_dups col)).
  assert (Forall2 (λ u v, check_cell u = Some v) us (valid_cell <$> us)) as Hvs.
  { apply Forall2_fmap_r, Forall_Forall2_diag, Forall_forall. intros c Hc.
    apply (np_unique_elem_of _ _ _ Hus) in Hc.
    eapply Forall_forall in Hstr; [|exact Hc]. by destruct c. }
  rewrite (mapM_Some_2 _ _ _ Hvs). simpl.
  erewrite mapM_Some_2; [done|].
  apply Forall2_fmap_r, Forall_Forall2_diag, Forall_forall. intros c Hc.
  rewrite (validation_map_lookup check_cell _ _ _ Hvs)
    by (by apply (np_unique_elem_of _ _ _ Hus)).
  eapply Forall_forall in Hstr; [|exact Hc]. by destruct c.
Qed.

(** X1.  [remove_invalid_smiles] returns exactly when every entry of the
    column is a string; it then gives the mask of the entries that
    [check_smiles] accepts (or, without [return_condition], what
    [dataframe[cond]] gives for that mask): the lookup in [_validation_map]
    finds every entry.  On a column with a missing value or a number it
    raises. *)
Theorem remove_invalid_smiles_returns df key col return_condition :
  column key df = Some col →
  (Forall (λ c, is_str c = true) col →
   remove_invalid_smiles df key return_condition =
   Some (if return_condition then inl (valid_cell <$> col)
         else inr (getitem_applied (valid_cell <$> col) df))) ∧
  (¬ Forall (λ c, is_str c = true) col →
   remove_invalid_smiles df key return_condition = None).
Proof.
  intros Hcol. split.
  - intros Hstr. destruct return_condition.
    + by apply remove_invalid_smiles_strings.
    + rewrite remove_invalid_smiles_modes.
      by rewrite (remove_invalid_smiles_strings _ _ _ Hcol Hstr).
  - intros Hnot.
    assert (remove_invalid_smiles df key true = None) as Hnone.
    { destruct (remove_invalid_smiles df key true) as [r|] eqn:Hr; [|done].
      apply remove_invalid_smiles_cond in Hr as (col' & Hcol' & _ & Hstr).
      rewrite Hcol in Hcol'. by simplify_eq. }
    destruct return_condition; [done|].
    by rewrite remove_invalid_smiles_modes, Hnone.
Qed.

(** X2.  Without [return_condition], [remove_invalid_smiles] gives back a
    frame whose rows are a sub-sequence of the rows it was given.  When the
    frame it was given has a row, every entry of the column in the result
    passes [check_smiles].  When the result has a row, a second call
    changes nothing.  When the result has no row, the mask of the second
    call is empty and is read as a list of column names: the second call
    gives a frame without columns, or raises for the missing column when
    the first call was already on a frame without rows. *)
Theorem remove_invalid_smiles_frame df key out :
  well_formed df →
  remove_invalid_smiles df key false = Some (inr out) →
  index out `sublist_of` index df ∧
  (0 < n_rows df →
   ∃ col, column key out = Some col ∧ Forall (λ c, valid_cell c = true) col) ∧
  (0 < n_rows out → remove_invalid_smiles out key false = Some (inr out)) ∧
  (n_rows out = 0 →
   remove_invalid_smiles out key false =
   if decide (n_rows df = 0) then None
   else Some (inr {| index := []; columns := ∅ |})).
Proof.
  intros Hwf Hout. rewrite remove_invalid_smiles_modes in Hout.
  destruct (remove_invalid_smiles df key true) as [r|] eqn:Hr; [|done].
  apply remove_invalid_smiles_cond in Hr as (col & Hcol & -> & Hstr).
  simpl in Hout. injection Hout as <-.
  pose proof (Hwf _ _ Hcol) as Hlen.
  destruct col as [|c0 col0] eqn:Ecol.
  { simpl in *. unfold n_rows in *. simpl.
    destruct (index df) as [|? ?] eqn:Hidx; [|done]. split_and!.
    - done.
    - simpl. lia.
    - simpl. lia.
    - intros _. rewrite decide_True by done.
      unfold remove_invalid_smiles, column. simpl. by rewrite lookup_empty. }
  rewrite <- Ecol in *. clear Hstr.
  assert (getitem_applied (valid_cell <$> col) df
          = select (valid_cell <$> col) df) as ->.
  { by rewrite Ecol. }
  assert (n_rows df ≠ 0) as Hrows by (rewrite <- Hlen, Ecol; done).
  assert (well_formed (select (valid_cell <$> col) df)) as Hwf'.
  { apply well_formed_select; [done|]. by rewrite length_fmap. }
  set (col' := filter (λ c, valid_cell c = true) col).
  assert (column key (select (valid_cell <$> col) df) = Some col') as Hcol'.
  { unfold col'. by rewrite column_select, Hcol, <- mask_filter_fmap. }
  assert (Forall (λ c, valid_cell c = true) col') as Hvalid.
  { apply Forall_forall. by intros c [? _]%list_elem_of_filter. }
  assert (remove_invalid_smiles (select (valid_cell <$> col) df) key false
          = Some (inr (getitem_applied (valid_cell <$> col')
                         (select (valid_cell <$> col) df)))) as Hagain.
  { rewrite remove_invalid_smiles_modes.
    rewrite (remove_invalid_smiles_strings _ _ _ Hcol'); [done|].
    eapply Forall_impl; [exact Hvalid|]. intros c Hc. by destruct c. }
  pose proof (Hwf' _ _ Hcol') as Hlen'. clearbody col'.
  split_and!.
  - apply mask_filter_sublist.
  - eauto.
  - intros Hpos. rewrite Hagain. do 2 f_equal.
    assert (getitem_applied (valid_cell <$> col')
              (select (valid_cell <$> col) df)
            = select (valid_cell <$> col') (select (valid_cell <$> col) df))
      as ->.
    { destruct col'; [simpl in Hlen'; lia|done]. }
    apply select_all_true; [done| |].
    + apply Forall_fmap. eapply Forall_impl; [exact Hvalid|]. done.
    + by rewrite length_fmap.
  - intros Hzero. rewrite Hagain, decide_False by done. do 2 f_equal.
    destruct col' as [|c1 col1]; [|simpl in Hlen'; lia].
    simpl. f_equal. by apply nil_length_inv.
Qed.

(** What the two columns the filter cells test look like afterwards. *)
Lemma filters_columns a b :
  filters a = Some b →
  ∃ smiles dose,
    column "canonical_smiles" b = Some smiles ∧
    column "pert_dose" b = Some dose ∧
    Forall (λ c, is_str c = true ∧ (c ∉ sentinels) ∧ valid_cell c = true ∧
                 min_replicates ≤ count_of c smiles) smiles ∧
    Forall (λ d, d ≠ dose_sentinel) dose.
Proof.
  intros (a1 & a2 & a3 & H1 & H2 & H3 & H4)%filters_Some.
  apply cell_invalid_smiles_Some in H1 as (s0 & Hs0 & ->).
  apply cell_pert_dose_Some in H2 as (d1 & Hd1 & ->).
  apply cell_replicates_Some in H3 as (s2 & Hs2 & ->).
  apply cell_rdkit_Some in H4 as (s3 & Hs3 & -> & _).
  rewrite column_select, Hs2 in Hs3. simpl in Hs3. injection Hs3 as <-.
  rewrite column_select, column_select, column_set_column_eq in Hs2.
  simpl in Hs2. injection Hs2 as <-.
  rewrite column_select, column_set_column_ne in Hd1 by done.
  destruct (column "pert_dose" a) as [d0|] eqn:Hd0; [|done].
  simpl in Hd1. injection Hd1 as <-.
  set (s0' := astype_str float_str s0).
  set (m1 := mask_not (isin s0' sentinels)).
  set (d1 := mask_filter m1 d0).
  set (m2 := mask_not (isin d1 [dose_sentinel])).
  set (s2 := mask_filter m2 (mask_filter m1 s0')).
  set (valid := index_where_not (lt_scalar (value_counts s2) min_replicates)).
  set (s3 := mask_filter (isin s2 valid) s2).
  exists (mask_filter (valid_cell <$> s3) s3),
         (mask_filter (valid_cell <$> s3) (mask_filter (isin s2 valid)
            (mask_filter m2 d1))).
  split_and!.
  - by rewrite !column_select, column_set_column_eq.
  - by rewrite !column_select, column_set_column_ne, Hd0.
  - apply Forall_forall. intros c Hc. rewrite mask_filter_fmap in Hc |- *.
    pose proof Hc as [Hvalid Hc3]%list_elem_of_filter.
    split_and!; try done.
    + by destruct c.
    + assert (c ∈ mask_filter m1 s0') as Hc1.
      { eapply elem_of_mask_filter, elem_of_mask_filter, Hc3. }
      unfold m1, isin in Hc1. rewrite mask_filter_not_fmap in Hc1.
      apply list_elem_of_filter in Hc1 as [Hc1 _].
      by apply bool_decide_eq_false in Hc1.
    + rewrite count_of_filter by done.
      unfold s3, isin in Hc3 |- *. rewrite mask_filter_fmap in Hc3 |- *.
      apply list_elem_of_filter in Hc3 as [Hv Hc2].
      rewrite count_of_filter by done. apply bool_decide_eq_true in Hv.
      by apply elem_of_index_where_not in Hv as (_ & _ & ?).
  - apply Forall_forall. intros d Hd.
    do 2 apply elem_of_mask_filter in Hd.
    unfold m2, isin in Hd. rewrite mask_filter_not_fmap in Hd.
    apply list_elem_of_filter in Hd as [Hd _].
    apply bool_decide_eq_false in Hd. intros ->. apply Hd, list_elem_of_here.
Qed.

(** X3.  The filter cells are idempotent: run on a table they have already
    filtered, the four cells return it unchanged (no string is converted, no
    row is dropped, the counts of the replicate filter still hold). *)
Theorem filters_idempotent a b :
  well_formed a → filters a = Some b → filters b = Some b.
Proof.
  intros Hwf Hf. pose proof (filters_well_formed _ _ Hwf Hf) as Hwfb.
  destruct (filters_columns _ _ Hf) as (smiles & dose & Hsm & Hd & Hall & Hdose).
  pose proof (Hwfb _ _ Hsm) as Lsm. pose proof (Hwfb _ _ Hd) as Ld.
  assert (Forall (λ c, is_str c = true) smiles) as Hstr.
  { eapply Forall_impl; [exact Hall|]. by intros c (? & _). }
  assert (cell_invalid_smiles b = Some b) as H1.
  { unfold cell_invalid_smiles. rewrite Hsm. simpl.
    rewrite (astype_str_strings _ _ Hstr), (set_column_same _ _ _ Hsm), Hsm.
    simpl. f_equal. apply select_all_true; [done| |].
    - apply not_isin_all_true. eapply Forall_impl; [exact Hall|].
      by intros c (_ & ? & _).
    - unfold mask_not. by rewrite length_fmap, length_isin. }
  assert (cell_pert_dose b = Some b) as H2.
  { unfold cell_pert_dose. rewrite Hd. simpl. f_equal.
    apply select_all_true; [done| |].
    - apply not_isin_all_true. eapply Forall_impl; [exact Hdose|].
      intros d Hne Hin. by apply list_elem_of_singleton in Hin.
    - unfold mask_not. by rewrite length_fmap, length_isin. }
  assert (cell_replicates b = Some b) as H3.
  { unfold cell_replicates. rewrite Hsm. simpl. f_equal.
    apply select_all_true; [done| |by rewrite length_isin].
    apply isin_all_true, Forall_forall. intros c Hc.
    apply elem_of_index_where_not.
    eapply Forall_forall in Hall; [|exact Hc].
    destruct Hall as (Hs & _ & _ & Hcount). split_and!; [done| |done].
    intros ->. done. }
  assert (cell_rdkit b = Some b) as H4.
  { unfold cell_rdkit.
    rewrite (remove_invalid_smiles_strings _ _ _ Hsm Hstr). simpl. f_equal.
    apply select_all_true; [done| |by rewrite length_fmap].
    apply Forall_fmap. eapply Forall_impl; [exact Hall|].
    by intros c (_ & _ & ? & _). }
  unfold filters. rewrite H1. simpl. rewrite H2. simpl. by rewrite H3.
Qed.

End Again.
End FilterAgain.

(** ** The merge cell and the columns of the notebook *)

Module ColumnFacts.
Import Pandas PandasFacts FrameFacts Lincs FilterFacts MergeFacts SplitFacts.
Import RowFacts FilterAgain.

(** X4.  The merge cell goes through exactly when no observation matches
    more than one reference row.  On a table without a [canonical_smiles]
    column the join is on [pert_id]: no observation may have a [pert_id]
    that the reference table lists more than once.  On a table that has the
    column already the join is on both columns: no observation may have a
    pair that the reference table lists more than once.  Otherwise the
    merged frame has not the length of [adata] and the assignment to
    [adata.obs] raises. *)
Theorem cell_merge_completes_iff reference_df adata keys :
  well_formed adata → column "pert_id" adata = Some keys →
  (is_Some (cell_merge reference_df adata) ↔
   match column "canonical_smiles" adata with
   | None =>
       Forall (λ k, length (filter (λ r, r.1 = k) reference_df) ≤ 1) keys
   | Some smiles =>
       Forall (λ ks, length (filter (λ r, r = ks) reference_df) ≤ 1)
         (zip keys smiles)
   end).
Proof.
  intros Hwf Hkeys. rewrite cell_merge_is_Some by done.
  assert (is_Some (column "pert_id" adata) ∨
          is_Some (column "canonical_smiles" adata)) as Hcol by eauto.
  destruct (column "canonical_smiles" adata) as [smiles|] eqn:Hsmiles.
  - rewrite (join_keys_both _ _ _ _ _ Hkeys Hsmiles), Forall_fmap.
    split; [intros [_ Hall]|intros Hall; split; [done|]];
      (eapply Forall_impl; [exact Hall|]); intros [k v]; simpl;
      by rewrite matches_both.
  - rewrite (join_keys_key_only _ _ _ _ Hwf Hkeys Hsmiles), Forall_fmap.
    split; [intros [_ Hall]|intros Hall; split; [done|]];
      (eapply Forall_impl; [exact Hall|]); intros k; simpl;
      by rewrite matches_key_only.
Qed.

Lemma matches_restrict ids jk k reference_df :
  jk.1 = Some k → k ∈ ids →
  matches jk (restrict_reference ids reference_df) = matches jk reference_df.
Proof.
  intros Hjk Hk. unfold matches, restrict_reference. rewrite Hjk.
  rewrite list_filter_filter. apply list_filter_iff.
  intros [k' v]. simpl. split; [by intros [? _] | by intros [<- ?]].
Qed.

Lemma merge_rows_restrict ids pos jks reference_df :
  Forall (λ jk, ∃ k, jk.1 = Some k ∧ k ∈ ids) jks →
  merge_rows pos jks (restrict_reference ids reference_df)
  = merge_rows pos jks reference_df.
Proof.
  intros Hall. revert pos.
  induction Hall as [|jk jks (k & Hjk & Hk) _ IH]; intros pos; [done|].
  simpl. by rewrite (matches_restrict _ _ _ _ Hjk Hk), IH.
Qed.

(** X5.  Restricting the reference table to the perturbations that occur in
    [adata.obs] does not change what the merge cell does: the cell gives the
    same result on the full reference table. *)
Theorem restricted_reference_same_merge reference_df adata ids :
  pert_id_unique adata = Some ids →
  cell_merge (restrict_reference ids reference_df) adata
  = cell_merge reference_df adata.
Proof.
  unfold pert_id_unique, cell_merge, merge_left, join_keys.
  destruct (column "pert_id" adata) as [keys|]; [|done]. simpl. intros Hids.
  rewrite merge_rows_restrict; [done|].
  apply Forall_forall. intros [e1 e2] Hjk. apply elem_of_zip_l in Hjk.
  apply list_elem_of_fmap in Hjk as (k & -> & Hk).
  exists k. split; [done|]. by apply (np_unique_elem_of _ _ _ Hids).
Qed.

(** Columns under one step, forwards and backwards. *)
Lemma column_cell_merge reference_df a b name :
  cell_merge reference_df a = Some b →
  (is_Some (column name a) → is_Some (column name b)) ∧
  (name ≠ "pert_id"%string → name ≠ "canonical_smiles"%string →
   is_Some (column name b) → is_Some (column name a)).
Proof.
  unfold cell_merge.
  destruct (merge_left _ _ a reference_df) as [merged|] eqn:Hm; [|done].
  simpl. case_bool_decide; [|done]. intros [= <-].
  set (rows := merge_rows 0 (join_keys "pert_id" "canonical_smiles" a)
                 reference_df).
  assert (columns merged =
    add_missing "pert_id" (from_right fst rows)
      (add_missing "canonical_smiles" (from_right snd rows)
         (take_rows rows.*1 <$> columns a))) as Hcols.
  { unfold merge_left in Hm.
    destruct (column "pert_id" a), (column "canonical_smiles" a);
      by simplify_eq. }
  unfold column. rewrite Hcols, !lookup_add_missing, lookup_fmap.
  destruct (columns a !! name) as [col|]; simpl.
  - split; eauto.
  - split; [by intros []%is_Some_None|]. intros Hp Hc.
    by rewrite !decide_False by done.
Qed.

Section Columns.
Context `{Libraries}.

Lemma column_filters a b name :
  filters a = Some b → name ≠ "canonical_smiles"%string →
  is_Some (column name b) ↔ is_Some (column name a).
Proof.
  intros (a1 & a2 & a3 & H1 & H2 & H3 & H4)%filters_Some Hname.
  destruct (filter_cell_mask a a1) as (m1 & _ & E1); [tauto|].
  destruct (filter_cell_mask a1 a2) as (m2 & _ & E2); [tauto|].
  destruct (filter_cell_mask a2 a3) as (m3 & _ & E3); [tauto|].
  destruct (filter_cell_mask a3 b) as (m4 & _ & E4); [tauto|].
  by rewrite E4, E3, E2, E1, !fmap_is_Some.
Qed.

Lemma cell_split_frame a b name :
  cell_split a = Some b → name ≠ "split"%string →
  column name b = column name a.
Proof.
  intros Hc Hname. destruct (has_column "split" a) eqn:Hs.
  - rewrite cell_split_existing in Hc by done. by injection Hc as <-.
  - destruct (cell_split_new _ _ Hs Hc)
      as (? & ? & ? & ? & ? & ? & _ & _ & _ & _ & ->).
    unfold set_scalar. by rewrite !column_loc_set_ne, column_set_column_ne.
Qed.

Lemma cell_split_has_split a b :
  cell_split a = Some b → is_Some (column "split" b).
Proof.
  intros Hc. destruct (has_column "split" a) eqn:Hs.
  - rewrite cell_split_existing in Hc by done. injection Hc as <-.
    by apply has_column_true.
  - destruct (cell_split_new _ _ Hs Hc)
      as (? & ? & ? & ? & ? & ? & _ & _ & _ & _ & ->).
    unfold loc_set at 1. by rewrite column_set_column_eq.
Qed.

Lemma shrink_back_has_split1 a b :
  shrink_back a = Some b → is_Some (column "split1" b).
Proof.
  intros (split & pert & cov & _ & _ & _ & ->)%shrink_back_Some.
  unfold loc_set. by rewrite column_set_column_eq.
Qed.

Lemma cell_random_split_has_column a b :
  cell_random_split a = Some b → is_Some (column "random_split" b).
Proof.
  unfold cell_random_split.
  destruct (train_test_split (index a) _ _) as [[tr tmp]|]; [|done]. simpl.
  destruct (train_test_split tmp _ _) as [[va te]|]; [|done]. simpl.
  destruct (loc_set_labels tr _ _ _) as [a1|]; [|done]. simpl.
  destruct (loc_set_labels va _ _ _) as [a2|]; [|done]. simpl.
  unfold loc_set_labels. case_bool_decide; [|done]. intros [= <-].
  unfold loc_set. by rewrite column_set_column_eq.
Qed.

(** X6.  The notebook needs the columns [pert_id], [pert_dose] and [cell_id]
    in the loaded table: when it runs to the end the three were there, so a
    table without one of them stops the run with a [KeyError]. *)
Theorem notebook_needs_columns reference_df adata out :
  notebook reference_df adata = Some out →
  is_Some (column "pert_id" adata) ∧
  is_Some (column "pert_dose" adata) ∧
  is_Some (column "cell_id" adata).
Proof.
  intros (ids & merged & filtered & Hids & Hm & Hf & Hs)%notebook_Some.
  split_and!.
  - unfold pert_id_unique in Hids. by destruct (column "pert_id" adata).
  - apply (column_cell_merge _ _ _ "pert_dose" Hm); [done..|].
    apply filters_Some in Hf as (a1 & a2 & _ & H1 & H2 & _).
    apply cell_invalid_smiles_Some in H1 as (smiles & _ & ->).
    apply cell_pert_dose_Some in H2 as (dose & Hd & _).
    rewrite column_select, column_set_column_ne in Hd by done.
    by destruct (column "pert_dose" merged).
  - apply (column_cell_merge _ _ _ "cell_id" Hm); [done..|].
    apply (column_filters _ _ "cell_id" Hf); [done|].
    apply splits_Some in Hs as (a1 & a2 & H1 & H2 & _).
    rewrite <- (cell_split_frame _ _ "cell_id" H1) by done.
    apply shrink_back_Some in H2 as (? & ? & cov & _ & _ & Hc & _).
    by rewrite Hc.
Qed.

(** X7.  The table that is written has every column of the loaded table and
    the four derived ones: [canonical_smiles], [split], [split1] and
    [random_split]. *)
Theorem notebook_columns reference_df adata out :
  notebook reference_df adata = Some out →
  (∀ name, is_Some (column name adata) → is_Some (column name out)) ∧
  is_Some (column "canonical_smiles" out) ∧
  is_Some (column "split" out) ∧
  is_Some (column "split1" out) ∧
  is_Some (column "random_split" out).
Proof.
  intros (ids & merged & filtered & _ & Hm & Hf & Hs)%notebook_Some.
  apply splits_Some in Hs as (a1 & a2 & H1 & H2 & H3).
  pose proof (cell_split_has_split _ _ H1) as Hsplit.
  pose proof (shrink_back_has_split1 _ _ H2) as Hsplit1.
  pose proof (cell_random_split_has_column _ _ H3) as Hrandom.
  apply shrink_back_frame in H2 as [_ F2].
  apply cell_random_split_frame in H3 as [_ F3].
  assert (is_Some (column "canonical_smiles" filtered)) as Hsm.
  { destruct (filters_columns _ _ Hf) as (smiles & _ & -> & _). done. }
  assert (∀ name, is_Some (column name filtered) → is_Some (column name out))
    as Hfwd.
  { intros name Hname.
    destruct (decide (name = "random_split"%string)) as [->|N3]; [done|].
    rewrite F3 by done.
    destruct (decide (name = "split1"%string)) as [->|N2]; [done|].
    rewrite F2 by done.
    destruct (decide (name = "split"%string)) as [->|N1]; [done|].
    by rewrite (cell_split_frame _ _ name H1). }
  split_and!.
  - intros name Hname. apply Hfwd.
    destruct (decide (name = "canonical_smiles"%string)) as [->|N]; [done|].
    apply (column_filters _ _ name Hf); [done|].
    by apply (column_cell_merge _ _ _ name Hm).
  - by apply Hfwd.
  - by rewrite F3, F2.
  - by rewrite F3.
  - done.
Qed.

End Columns.
End ColumnFacts.

(** ** The split cells, counted and run again *)

Module SplitAgain.
Import Pandas PandasFacts FrameFacts Lincs SplitFacts ShrinkBack RowFacts.
Import ColumnFacts.

Lemma count_of_cons v c col :
  count_of v (c :: col) = (if decide (c = v) then 1 else 0) + count_of v col.
Proof. unfold count_of. rewrite filter_cons. by case_decide. Qed.

(** Counting labels before and after rows of the test split are relabelled
    to ['train']. *)
Lemma relabel_counts split split1 :
  Forall2 (λ s s1, s1 = s ∨ (s = Str "test" ∧ s1 = Str "train")) split split1 →
  (∀ v, v ≠ Str "train" → v ≠ Str "test" → count_of v split1 = count_of v split) ∧
  count_of (Str "test") split1 ≤ count_of (Str "test") split ∧
  count_of (Str "train") split1 + count_of (Str "test") split1
  = count_of (Str "train") split + count_of (Str "test") split.
Proof.
  induction 1 as [|s s1 split split1 Hs _ (IH1 & IH2 & IH3)]; [done|].
  split_and!.
  - intros v Hv1 Hv2. rewrite !count_of_cons, IH1 by done.
    destruct Hs as [->|[-> ->]]; [done|]. by rewrite !decide_False.
  - rewrite !count_of_cons. destruct Hs as [->|[-> ->]]; [lia|].
    repeat case_decide; simplify_eq; lia.
  - rewrite !count_of_cons. destruct Hs as [->|[-> ->]]; [lia|].
    repeat case_decide; simplify_eq; lia.
Qed.

Section Again.
Context `{Libraries}.

(** X8.  The fixup moves rows from ['test'] to ['train'] and nothing else:
    in [split1] the number of ['ood'] rows (and of any label other than
    ['train'] and ['test']) is what it is in [split], the number of ['test']
    rows has not grown, and ['train'] and ['test'] together count as many
    rows as before. *)
Theorem shrink_back_counts adata out :
  well_formed adata → shrink_back adata = Some out →
  ∃ split split1,
    column "split" adata = Some split ∧
    column "split1" out = Some split1 ∧
    count_of (Str "ood") split1 = count_of (Str "ood") split ∧
    (∀ v, v ≠ Str "train" → v ≠ Str "test" →
       count_of v split1 = count_of v split) ∧
    count_of (Str "test") split1 ≤ count_of (Str "test") split ∧
    count_of (Str "train") split1 + count_of (Str "test") split1
    = count_of (Str "train") split + count_of (Str "test") split.
Proof.
  intros Hwf Hsb.
  destruct (shrink_back_rows _ _ Hwf Hsb)
    as (split & pert & cov & split1 & Hsp & Hp & Hc & Hs1 & Lp & Lc & Lsp & Hrows).
  exists split, split1.
  assert (Forall2 (λ s s1, s1 = s ∨ (s = Str "test" ∧ s1 = Str "train"))
            split split1) as Hrel.
  { apply Forall2_same_length_lookup_2; [done|].
    intros i s s1 Hs Hs1'. pose proof (lookup_lt_Some _ _ _ Hs) as Hi.
    destruct (lookup_lt_is_Some_2 pert i) as [p Hpi]; [lia|].
    destruct (lookup_lt_is_Some_2 cov i) as [c Hci]; [lia|].
    rewrite (Hrows i s p c Hs Hpi Hci) in Hs1'. injection Hs1' as <-.
    case_bool_decide as Hb; [|by left]. right. by destruct Hb. }
  destruct (relabel_counts _ _ Hrel) as (Hother & Htest & Hsum).
  split_and!; try done. by apply Hother.
Qed.

(** X9.  The fixup reads [split], [pert_id] and [cell_id] only: run a second
    time, on its own result, it returns that result unchanged (the [split1]
    of the first run is overwritten with the same column). *)
Theorem shrink_back_idempotent a b :
  shrink_back a = Some b → shrink_back b = Some b.
Proof.
  intros (split & pert & cov & Hsp & Hp & Hc & Hb)%shrink_back_Some.
  simpl in Hb. unfold shrink_back, cell_shrink_cond, cond_test, cell_split1.
  assert (column "split" b = Some split) as ->.
  { by rewrite Hb, column_loc_set_ne, column_set_column_ne. }
  assert (column "pert_id" b = Some pert) as ->.
  { by rewrite Hb, column_loc_set_ne, column_set_column_ne. }
  assert (column "cell_id" b = Some cov) as ->.
  { by rewrite Hb, column_loc_set_ne, column_set_column_ne. }
  simpl. f_equal. rewrite Hb at 2. rewrite Hb at 1.
  unfold loc_set. rewrite !column_set_column_eq. simpl.
  unfold set_column. simpl. f_equal. by rewrite !insert_insert_eq.
Qed.

(** X10.  The split cell does its work once: on the table it has returned,
    which now has a [split] column, it returns the table unchanged and draws
    no new partition. *)
Theorem cell_split_idempotent a b :
  cell_split a = Some b → cell_split b = Some b.
Proof.
  intros Hc. apply cell_split_existing, has_column_true.
  by eapply cell_split_has_split.
Qed.

Lemma loc_set_labels_subset labels name v df :
  labels ⊆ index df →
  loc_set_labels labels name v df
  = Some (loc_set ((λ l, bool_decide (l ∈ labels)) <$> index df) name v df).
Proof.
  intros Hsub. unfold loc_set_labels. rewrite bool_decide_eq_true_2; [done|].
  apply Forall_forall. intros l Hl. by apply Hsub.
Qed.

(** X11.  When the two calls of [train_test_split] on the row labels return
    (each a partition of its input), the random split cell raises no
    [KeyError], keeps the rows, and gives every row one of ['train'],
    ['test'], ['ood'] in [random_split]: ['ood'] if its label is in
    [test_obs], else ['test'] if it is in [val_obs], else ['train'].  With
    distinct row labels the three lists do not overlap, so a row is labelled
    by the one list that holds its label. *)
Theorem cell_random_split_labels a train_obs val_test_obs val_obs test_obs :
  split_is_partition →
  train_test_split (index a) (Q2Qc (15 # 100)) 42 = Some (train_obs, val_test_obs) →
  train_test_split val_test_obs (Q2Qc (5 # 10)) 42 = Some (val_obs, test_obs) →
  ∃ b random_split,
    cell_random_split a = Some b ∧
    index b = index a ∧
    column "random_split" b = Some random_split ∧
    length random_split = n_rows a ∧
    (∀ i l, index a !! i = Some l →
       random_split !! i =
         Some (if bool_decide (l ∈ test_obs) then Str "ood"
               else if bool_decide (l ∈ val_obs) then Str "test"
               else Str "train")) ∧
    (NoDup (index a) → ∀ i l, index a !! i = Some l →
       (l ∈ train_obs → random_split !! i = Some (Str "train")) ∧
       (l ∈ val_obs → random_split !! i = Some (Str "test")) ∧
       (l ∈ test_obs → random_split !! i = Some (Str "ood"))).
Proof.
  intros Hpart H1 H2.
  pose proof (Hpart _ _ _ _ _ _ H1) as P1.
  pose proof (Hpart _ _ _ _ _ _ H2) as P2.
  assert (train_obs ++ val_obs ++ test_obs ≡ₚ index a) as P.
  { by rewrite P2. }
  assert (train_obs ⊆ index a) as S1 by (rewrite <- P; set_solver).
  assert (val_obs ⊆ index a) as S2 by (rewrite <- P; set_solver).
  assert (test_obs ⊆ index a) as S3 by (rewrite <- P; set_solver).
  set (mask := λ labels : list string,
                 (λ l : string, bool_decide (l ∈ labels)) <$> index a).
  set (rs := mask_assign (mask test_obs) (Str "ood")
               (mask_assign (mask val_obs) (Str "test")
                  (mask_assign (mask train_obs) (Str "train")
                     (replicate (n_rows a) (Str ""))))).
  assert (∀ i l, index a !! i = Some l →
            rs !! i = Some (if bool_decide (l ∈ test_obs) then Str "ood"
                            else if bool_decide (l ∈ val_obs) then Str "test"
                            else Str "train")) as Hrows.
  { intros i l Hl. pose proof (lookup_lt_Some _ _ _ Hl) as Hi.
    assert (∀ labels, mask labels !! i = Some (bool_decide (l ∈ labels))) as Hm.
    { intros labels. unfold mask. by rewrite list_lookup_fmap, Hl. }
    assert (rs !! i =
              Some (if bool_decide (l ∈ test_obs) then Str "ood"
                    else if bool_decide (l ∈ val_obs) then Str "test"
                    else if bool_decide (l ∈ train_obs) then Str "train"
                    else Str "")) as ->.
    { unfold rs. repeat (apply lookup_mask_assign; [apply Hm|]).
      apply lookup_replicate_2. unfold n_rows. lia. }
    assert (l ∈ train_obs ++ val_obs ++ test_obs) as Hin.
    { rewrite P. by eapply list_elem_of_lookup_2. }
    rewrite !elem_of_app in Hin. f_equal.
    repeat case_bool_decide; try done. tauto. }
  exists (loc_set (mask test_obs) "random_split" (Str "ood")
            (loc_set (mask val_obs) "random_split" (Str "test")
               (loc_set (mask train_obs) "random_split" (Str "train")
                  (set_scalar "random_split" (Str "") a)))), rs.
  split_and!.
  - unfold cell_random_split. rewrite H1. simpl. rewrite H2. simpl.
    rewrite loc_set_labels_subset by done. simpl.
    rewrite loc_set_labels_subset by done. simpl.
    by rewrite loc_set_labels_subset.
  - done.
  - unfold loc_set, set_scalar. by rewrite !column_set_column_eq.
  - unfold rs, mask. rewrite !length_mask_assign, !length_fmap, length_replicate.
    unfold n_rows. lia.
  - done.
  - intros Hnd i l Hl. rewrite (Hrows i l Hl).
    rewrite <- P in Hnd. apply NoDup_app in Hnd as (_ & Htr & Hnd).
    apply NoDup_app in Hnd as (_ & Hva & _). split_and!.
    + intros Hin. specialize (Htr _ Hin). rewrite elem_of_app in Htr.
      rewrite !bool_decide_eq_false_2; [done|tauto..].
    + intros Hin. specialize (Hva _ Hin).
      by rewrite bool_decide_eq_false_2, bool_decide_eq_true_2.
    + intros Hin. by rewrite bool_decide_eq_true_2.
Qed.

End Again.
End SplitAgain.

(** ** The embedding loop as a whole *)

Module LoopFacts.
Import Embeddings EmbeddingFacts.

Section Loop.
Context `{Env}.

Lemma length_error_lines items w : length (error_lines items w) ≤ length items.
Proof.
  revert w. induction items as [|[dataset key] items IH]; intros w; simpl; [done|].
  destruct (compute_rdkit_embeddings _ _ _ _) as [w' [|text]]; simpl.
  - specialize (IH w'). lia.
  - specialize (IH w'). lia.
Qed.

(** X12.  Provided [os.makedirs] does not raise, the loop reaches the end of
    the list whatever the calls of [compute_rdkit_embeddings] do, and what it
    has written are the lines ["Error processing <dataset>: <text>"] of the
    datasets whose call raised, one each, in the order of the list. *)
Theorem loop_logs_every_failure items st :
  (∀ path w, (makedirs path w).2 = Returned) →
  (run items st).2 = Returned ∧
  written (run items st).1 = written st ++ error_lines items (world st) ∧
  length (error_lines items (world st)) ≤ length items.
Proof.
  intros Hmk. destruct (run_goes_through items st Hmk) as [Hr Hw].
  split_and!; [done..|]. apply length_error_lines.
Qed.

(** X13.  An exception of [os.makedirs] is outside the [try]: the loop stops
    at that dataset with the exception, writes no line for it, and the
    datasets after it are not processed. *)
Theorem makedirs_failure_stops_loop before dataset smiles_key after st st1 w text :
  run before st = (st1, Returned) →
  makedirs (dirname (output_path dataset)) (world st1) = (w, Raised text) →
  run (before ++ (dataset, smiles_key) :: after) st
  = (mkState w (written st1), Raised text).
Proof.
  intros Hbefore Hmk. rewrite run_app, Hbefore. simpl. by rewrite Hmk.
Qed.

(** X14.  The loop only adds to what was written: the lines written before
    the run are a prefix of the lines written after it, and at most one line
    per dataset is added, also when the run is stopped by an exception. *)
Theorem written_only_grows items st :
  written st `prefix_of` written (run items st).1 ∧
  length (written (run items st).1) ≤ length (written st) + length items.
Proof.
  revert st. induction items as [|[dataset key] items IH]; intros st; simpl.
  { split; [done | lia]. }
  destruct (makedirs _ (world st)) as [w [|text]]; simpl; [|split; [done|lia]].
  destruct (compute_rdkit_embeddings _ _ _ w) as [w' [|text]].
  - destruct (IH (mkState w' (written st))) as [Hp Hl]. simpl in *.
    split; [done | lia].
  - destruct (IH (mkState w' (written st ++ [error_line dataset text])))
      as [Hp Hl]. simpl in *. rewrite length_app in Hl. simpl in Hl. split.
    + etrans; [|exact Hp]. by apply prefix_app_r.
    + lia.
Qed.

End Loop.
End LoopFacts.

(** ** Which rows the steps keep *)

Module KeptRows.
Import Pandas PandasFacts FrameFacts Lincs FilterFacts MergeFacts SplitFacts.
Import IdentitySplit RowFacts FilterAgain ColumnFacts SplitAgain.

Lemma mask_filter_fmap_zip {A B} (f : B → bool) (a : list A) (b : list B) :
  mask_filter (f <$> b) (zip a b) = filter (λ p, f p.2 = true) (zip a b).
Proof.
  revert a. induction b as [|y b IH]; intros [|x a]; simpl; try done.
  rewrite (filter_cons _ (x, y)). simpl.
  destruct (f y) eqn:E; case_decide; try congruence; by rewrite IH.
Qed.

Lemma count_of_elem_of v col : 0 < count_of v col → v ∈ col.
Proof.
  unfold count_of. intros Hpos.
  destruct (filter (λ c, c = v) col) as [|c l] eqn:E; [simpl in Hpos; lia|].
  assert (c ∈ filter (λ c, c = v) col) as Hc by (rewrite E; apply list_elem_of_here).
  by apply list_elem_of_filter in Hc as [-> ?].
Qed.

Lemma take_rows_merge_sublist {A} (pre rest : list A) jks right :
  length rest = length jks →
  rest `sublist_of`
    take_rows (merge_rows (length pre) jks right).*1 (pre ++ rest).
Proof.
  revert pre rest. induction jks as [|jk jks IH]; intros pre [|x rest] Hlen;
    simpl in *; try done.
  rewrite fmap_app, take_rows_app.
  assert ((pre ++ x :: rest) !! length pre = Some x) as Hx.
  { by rewrite lookup_app_r, Nat.sub_diag by done. }
  assert (rest `sublist_of`
            take_rows (merge_rows (S (length pre)) jks right).*1
              (pre ++ x :: rest)) as Htail.
  { specialize (IH (pre ++ [x]) rest). rewrite length_app in IH. simpl in IH.
    rewrite Nat.add_1_r, <- app_assoc in IH. apply IH. lia. }
  destruct (matches jk right) as [|v ms]; unfold take_rows at 1; simpl;
    rewrite Hx; simpl.
  - by apply sublist_skip.
  - by apply sublist_skip, sublist_inserts_l.
Qed.

(** X15.  The left merge never drops or reorders an observation: the row
    labels of [left] are a sub-sequence of the row labels of the merged
    frame, which therefore has at least as many rows (a row is repeated
    once per further right row that matches it). *)
Theorem merge_left_keeps_rows key value left right merged keys :
  well_formed left → column key left = Some keys →
  merge_left key value left right = Some merged →
  index left `sublist_of` index merged ∧ n_rows left ≤ n_rows merged.
Proof.
  intros Hwf Hkeys. unfold merge_left. rewrite Hkeys. simpl. intros [= <-].
  simpl.
  assert (index left `sublist_of`
            take_rows (merge_rows 0 (join_keys key value left) right).*1
              (index left)) as Hsub.
  { apply (take_rows_merge_sublist [] (index left)).
    symmetry. by apply length_join_keys. }
  split; [done|]. by apply sublist_length in Hsub.
Qed.

Section Kept.
Context `{Libraries}.

(** X16.  The dose cell keeps exactly the rows whose [pert_dose] is not
    [-666], in their order; a row whose [pert_dose] is missing is kept. *)
Theorem cell_pert_dose_keeps_exactly a dose :
  column "pert_dose" a = Some dose →
  ∃ b dose',
    cell_pert_dose a = Some b ∧
    column "pert_dose" b = Some dose' ∧
    zip (index b) dose'
    = filter (λ p, p.2 ≠ dose_sentinel) (zip (index a) dose) ∧
    (∀ l, (l, NaN) ∈ zip (index a) dose → (l, NaN) ∈ zip (index b) dose').
Proof.
  intros Hd. unfold cell_pert_dose. rewrite Hd. simpl.
  eexists _, _. split; [done|]. rewrite column_select, Hd. simpl.
  split; [done|].
  assert (zip (mask_filter (mask_not (isin dose [dose_sentinel])) (index a))
              (mask_filter (mask_not (isin dose [dose_sentinel])) dose)
          = filter (λ p, p.2 ≠ dose_sentinel) (zip (index a) dose)) as Heq.
  { rewrite <- mask_filter_zip. unfold mask_not, isin.
    rewrite <- list_fmap_compose, mask_filter_fmap_zip.
    apply list_filter_iff. intros [l d]. simpl.
    rewrite negb_true_iff, bool_decide_eq_false, list_elem_of_singleton. done. }
  split; [done|]. intros l Hl. rewrite Heq. by apply list_elem_of_filter.
Qed.

(** X17.  The replicate cell keeps exactly the rows whose
    [canonical_smiles] is not missing and occurs on at least
    [min_replicates] = 6 rows of the table the cell is given, in their
    order. *)
Theorem cell_replicates_keeps_exactly a smiles :
  column "canonical_smiles" a = Some smiles →
  ∃ b smiles',
    cell_replicates a = Some b ∧
    column "canonical_smiles" b = Some smiles' ∧
    zip (index b) smiles'
    = filter (λ p, p.2 ≠ NaN ∧ min_replicates ≤ count_of p.2 smiles)
        (zip (index a) smiles).
Proof.
  intros Hs. unfold cell_replicates. rewrite Hs. simpl.
  eexists _, _. split; [done|]. rewrite column_select, Hs. simpl.
  split; [done|]. rewrite <- mask_filter_zip. unfold isin.
  rewrite mask_filter_fmap_zip. apply list_filter_iff. intros [l c]. simpl.
  rewrite bool_decide_eq_true, elem_of_index_where_not. split.
  - by intros (_ & ? & ?).
  - intros [? Hc]. split_and!; [|done..].
    apply count_of_elem_of. unfold min_replicates in Hc. lia.
Qed.

(** X18.  The split cell labels every row: when it computes the split, the
    [split] column has one entry per row, each one of ['train'], ['test'],
    ['ood'], so the three counts add up to the number of rows. *)
Theorem cell_split_labels_every_row adata out :
  well_formed adata → has_column "split" adata = false →
  cell_split adata = Some out →
  ∃ split,
    column "split" out = Some split ∧
    length split = n_rows out ∧
    Forall (λ v, v ∈ [Str "train"; Str "test"; Str "ood"]) split ∧
    count_of (Str "train") split + count_of (Str "test") split
      + count_of (Str "ood") split = n_rows out.
Proof.
  intros Hwf Hno Hsp.
  destruct (cell_split_column _ _ Hwf Hno Hsp)
    as (smiles & tr & va & te & Hsm & _ & Hidx & _ & split & Hsplit & Hlen & Hrows).
  exists split. pose proof (Hwf _ _ Hsm) as Lsm.
  assert (length split = n_rows out) as Hn.
  { unfold n_rows in *. by rewrite Hidx, Hlen. }
  assert (Forall (λ v, v ∈ [Str "train"; Str "test"; Str "ood"]) split) as Hall.
  { apply Forall_lookup. intros i v Hv.
    destruct (lookup_lt_is_Some_2 smiles i) as [c Hc].
    { apply lookup_lt_Some in Hv. lia. }
    rewrite (Hrows i c Hc) in Hv. injection Hv as <-.
    repeat case_bool_decide; set_solver. }
  split_and!; try done. rewrite <- Hn. clear - Hall.
  induction Hall as [|v split Hv _ IH]; [done|].
  rewrite !count_of_cons. simpl. rewrite <- IH.
  repeat apply elem_of_cons in Hv as [->|Hv];
    [..|by apply elem_of_nil in Hv]; repeat case_decide; simplify_eq; lia.
Qed.

(** X19.  The guarantees of the filter cells hold for the table that is
    written: the split cells leave [canonical_smiles] and [pert_dose] alone,
    so at the end every [canonical_smiles] entry is a string outside the
    sentinels that [check_smiles] accepts and that occurs on at least 6
    rows, and no [pert_dose] entry is [-666]. *)
Theorem written_rows_valid reference_df adata out :
  notebook reference_df adata = Some out →
  ∃ smiles dose,
    column "canonical_smiles" out = Some smiles ∧
    column "pert_dose" out = Some dose ∧
    Forall (λ c, is_str c = true ∧ (c ∉ sentinels) ∧ valid_cell c = true ∧
                 min_replicates ≤ count_of c smiles) smiles ∧
    Forall (λ d, d ≠ dose_sentinel) dose.
Proof.
  intros (ids & merged & filtered & _ & _ & Hf & Hs)%notebook_Some.
  destruct (filters_columns _ _ Hf) as (smiles & dose & Hsm & Hd & Hall & Hdose).
  apply splits_Some in Hs as (a1 & a2 & H1 & H2 & H3).
  apply shrink_back_frame in H2 as [_ F2].
  apply cell_random_split_frame in H3 as [_ F3].
  exists smiles, dose. split_and!; try done.
  - by rewrite F3, F2, (cell_split_frame _ _ _ H1).
  - by rewrite F3, F2, (cell_split_frame _ _ _ H1).
Qed.

End Kept.
End KeptRows.

(** ** The further properties on the small tables *)

Module MoreRuns.
Import Pandas PandasFacts FrameFacts Lincs Embeddings Examples.
Import FilterFacts MergeFacts SplitFacts RowFacts EmbeddingFacts.
Import FilterAgain ColumnFacts SplitAgain LoopFacts KeptRows Runs.

(** [remove_invalid_smiles] on [mixed_small], with [return_condition]. *)
Lemma remove_invalid_smiles_returns_run :
  ∃ col,
    column "SMILES" mixed_small = Some col ∧
    (Forall (λ c, is_str c = true) col →
     @remove_invalid_smiles small_libraries mixed_small "SMILES" true =
     Some (inl (@valid_cell small_libraries <$> col))) ∧
    (¬ Forall (λ c, is_str c = true) col →
     @remove_invalid_smiles small_libraries mixed_small "SMILES" true = None).
Proof.
  eexists. split; [vm_compute; reflexivity|].
  apply (@remove_invalid_smiles_returns small_libraries mixed_small "SMILES" _ true).
  vm_compute. reflexivity.
Defined.

(** [remove_invalid_smiles] on [mixed_small], without [return_condition]:
    three of the six rows are left. *)
Lemma remove_invalid_smiles_frame_run :
  ∃ out,
    @remove_invalid_smiles small_libraries mixed_small "SMILES" false
    = Some (inr out) ∧
    index out = ["obs_0"; "obs_2"; "obs_4"]%string ∧
    index out `sublist_of` index mixed_small ∧
    (0 < n_rows mixed_small →
     ∃ col, column "SMILES" out = Some col ∧
       Forall (λ c, @valid_cell small_libraries c = true) col) ∧
    (0 < n_rows out →
     @remove_invalid_smiles small_libraries out "SMILES" false
     = Some (inr out)) ∧
    (n_rows out = 0 →
     @remove_invalid_smiles small_libraries out "SMILES" false =
     if decide (n_rows mixed_small = 0) then None
     else Some (inr {| index := []; columns := ∅ |})).
Proof.
  eexists. split; [vm_compute; reflexivity|]. split; [vm_compute; reflexivity|].
  apply (@remove_invalid_smiles_frame small_libraries mixed_small "SMILES").
  - apply well_formed_map_Forall. by_evaluation.
  - vm_compute. reflexivity.
Defined.

(** The filter cells twice on [joined_small]. *)
Lemma filters_idempotent_run :
  ∃ b,
    @filters small_libraries joined_small = Some b ∧
    n_rows b = 8 ∧
    @filters small_libraries b = Some b.
Proof.
  eexists. split; [vm_compute; reflexivity|]. split; [vm_compute; reflexivity|].
  apply (@filters_idempotent small_libraries joined_small).
  - apply well_formed_map_Forall. by_evaluation.
  - vm_compute. reflexivity.
Defined.

(** The merge cell on [lincs_small] with [reference_small]. *)
Lemma cell_merge_completes_iff_run :
  ∃ keys,
    column "pert_id" lincs_small = Some keys ∧
    (is_Some (cell_merge reference_small lincs_small) ↔
     Forall (λ k, length (filter (λ r, r.1 = k) reference_small) ≤ 1) keys).
Proof.
  eexists. split; [vm_compute; reflexivity|].
  apply (cell_merge_completes_iff reference_small lincs_small).
  - apply well_formed_map_Forall. by_evaluation.
  - vm_compute. reflexivity.
Defined.

(** The merge cell on [lincs_small] with and without the restriction of
    [reference_small]. *)
Lemma restricted_reference_same_merge_run :
  ∃ ids,
    pert_id_unique lincs_small = Some ids ∧
    cell_merge (restrict_reference ids reference_small) lincs_small
    = cell_merge reference_small lincs_small.
Proof.
  eexists. split; [vm_compute; reflexivity|].
  apply (restricted_reference_same_merge reference_small lincs_small).
  vm_compute. reflexivity.
Defined.

(** The notebook on [lincs_small]: the three columns it needs. *)
Lemma notebook_needs_columns_run :
  ∃ out,
    @notebook small_libraries reference_small lincs_small = Some out ∧
    is_Some (column "pert_id" lincs_small) ∧
    is_Some (column "pert_dose" lincs_small) ∧
    is_Some (column "cell_id" lincs_small).
Proof.
  eexists. split; [vm_compute; reflexivity|].
  eapply (@notebook_needs_columns small_libraries reference_small lincs_small).
  vm_compute. reflexivity.
Defined.

(** The notebook on [lincs_small]: the columns of the written table. *)
Lemma notebook_columns_run :
  ∃ out,
    @notebook small_libraries reference_small lincs_small = Some out ∧
    (∀ name, is_Some (column name lincs_small) → is_Some (column name out)) ∧
    is_Some (column "canonical_smiles" out) ∧
    is_Some (column "split" out) ∧
    is_Some (column "split1" out) ∧
    is_Some (column "random_split" out).
Proof.
  eexists. split; [vm_compute; reflexivity|].
  apply (@notebook_columns small_libraries reference_small lincs_small).
  vm_compute. reflexivity.
Defined.

(** The fixup on [lincs_small], counted. *)
Lemma shrink_back_counts_run :
  ∃ out,
    shrink_back lincs_small = Some out ∧
    ∃ split split1,
      column "split" lincs_small = Some split ∧
      column "split1" out = Some split1 ∧
      count_of (Str "ood") split1 = count_of (Str "ood") split ∧
      (∀ v, v ≠ Str "train" → v ≠ Str "test" →
         count_of v split1 = count_of v split) ∧
      count_of (Str "test") split1 ≤ count_of (Str "test") split ∧
      count_of (Str "train") split1 + count_of (Str "test") split1
      = count_of (Str "train") split + count_of (Str "test") split.
Proof.
  eexists. split; [vm_compute; reflexivity|].
  apply (shrink_back_counts lincs_small).
  - apply well_formed_map_Forall. by_evaluation.
  - vm_compute. reflexivity.
Defined.

(** The fixup twice on [stale_table]. *)
Lemma shrink_back_idempotent_run :
  ∃ b, shrink_back stale_table = Some b ∧ shrink_back b = Some b.
Proof.
  eexists. split; [vm_compute; reflexivity|].
  apply (shrink_back_idempotent stale_table). vm_compute. reflexivity.
Defined.

(** The split cell twice on [fresh_small]. *)
Lemma cell_split_idempotent_run :
  ∃ b,
    @cell_split small_libraries fresh_small = Some b ∧
    @cell_split small_libraries b = Some b.
Proof.
  eexists. split; [vm_compute; reflexivity|].
  apply (@cell_split_idempotent small_libraries fresh_small).
  vm_compute. reflexivity.
Defined.

(** The random split cell on [lincs_small]: nine rows for ['train'], one for
    ['test'], one for ['ood']. *)
Lemma cell_random_split_labels_run :
  let train_obs := take 9 (index lincs_small) in
  let val_obs := ["obs_09"%string] in
  let test_obs := ["obs_10"%string] in
  ∃ b random_split,
    @cell_random_split small_libraries lincs_small = Some b ∧
    index b = index lincs_small ∧
    column "random_split" b = Some random_split ∧
    length random_split = n_rows lincs_small ∧
    (∀ i l, index lincs_small !! i = Some l →
       random_split !! i =
         Some (if bool_decide (l ∈ test_obs) then Str "ood"
               else if bool_decide (l ∈ val_obs) then Str "test"
               else Str "train")) ∧
    (NoDup (index lincs_small) → ∀ i l, index lincs_small !! i = Some l →
       (l ∈ train_obs → random_split !! i = Some (Str "train")) ∧
       (l ∈ val_obs → random_split !! i = Some (Str "test")) ∧
       (l ∈ test_obs → random_split !! i = Some (Str "ood"))).
Proof.
  intros train_obs val_obs test_obs.
  apply (@cell_random_split_labels small_libraries lincs_small
           train_obs (val_obs ++ test_obs) val_obs test_obs).
  - exact cut_split_partition.
  - vm_compute. reflexivity.
  - vm_compute. reflexivity.
Defined.

(** The loop over [datasets] in [small_env], where [os.makedirs] never
    raises: one line is written. *)
Lemma loop_logs_every_failure_run :
  let st := @mkState small_env [] [] in
  (@run small_env datasets st).2 = Returned ∧
  written (@run small_env datasets st).1
  = written st ++ @error_lines small_env datasets (world st) ∧
  length (@error_lines small_env datasets (world st)) ≤ length datasets.
Proof.
  intros st. apply (@loop_logs_every_failure small_env datasets st).
  intros path w. reflexivity.
Defined.

(** The loop over [datasets] in [locked_env]: it stops at the third
    dataset. *)
Lemma makedirs_failure_stops_loop_run :
  let file := "embeddings/rdkit/lincs_smiles.h5ad_rdkit2D_embedding.parquet"%string in
  let line := "Error processing lincs_full_smiles.h5ad: 'SMILES'"%string in
  @run locked_env
    (take 2 datasets ++ ("sciplex_complete.h5ad", "SMILES")%string :: drop 3 datasets)
    (@mkState locked_env [] [])
  = (@mkState locked_env [file] [line], Raised "[Errno 13] Permission denied").
Proof.
  intros file line.
  apply (@makedirs_failure_stops_loop locked_env (take 2 datasets)
           "sciplex_complete.h5ad" "SMILES" (drop 3 datasets)
           (@mkState locked_env [] []) (@mkState locked_env [file] [line])
           [file] "[Errno 13] Permission denied").
  - vm_compute. reflexivity.
  - vm_compute. reflexivity.
Defined.

(** The left merge of [dup_obs] with [dup_reference]: one row becomes two. *)
Lemma merge_left_keeps_rows_run :
  ∃ merged keys,
    column "pert_id" dup_obs = Some keys ∧
    merge_left "pert_id" "canonical_smiles" dup_obs dup_reference = Some merged ∧
    index dup_obs `sublist_of` index merged ∧ n_rows dup_obs ≤ n_rows merged.
Proof.
  eexists _, _.
  split; [vm_compute; reflexivity|]. split; [vm_compute; reflexivity|].
  eapply (merge_left_keeps_rows "pert_id" "canonical_smiles" dup_obs dup_reference).
  - apply well_formed_map_Forall. by_evaluation.
  - vm_compute. reflexivity.
  - vm_compute. reflexivity.
Defined.

(** The dose cell on [lincs_small]: the row with [-666] goes. *)
Lemma cell_pert_dose_keeps_exactly_run :
  ∃ dose,
    column "pert_dose" lincs_small = Some dose ∧
    ∃ b dose',
      cell_pert_dose lincs_small = Some b ∧
      column "pert_dose" b = Some dose' ∧
      zip (index b) dose'
      = filter (λ p, p.2 ≠ dose_sentinel) (zip (index lincs_small) dose) ∧
      (∀ l, (l, NaN) ∈ zip (index lincs_small) dose →
            (l, NaN) ∈ zip (index b) dose').
Proof.
  eexists. split; [vm_compute; reflexivity|].
  apply (cell_pert_dose_keeps_exactly lincs_small). vm_compute. reflexivity.
Defined.

(** The replicate cell on [joined_small]: the nine rows of [CCO] stay. *)
Lemma cell_replicates_keeps_exactly_run :
  ∃ smiles,
    column "canonical_smiles" joined_small = Some smiles ∧
    ∃ b smiles',
      cell_replicates joined_small = Some b ∧
      column "canonical_smiles" b = Some smiles' ∧
      zip (index b) smiles'
      = filter (λ p, p.2 ≠ NaN ∧ min_replicates ≤ count_of p.2 smiles)
          (zip (index joined_small) smiles).
Proof.
  eexists. split; [vm_compute; reflexivity|].
  apply (cell_replicates_keeps_exactly joined_small). vm_compute. reflexivity.
Defined.

(** The split cell on [fresh_small]: twelve labels. *)
Lemma cell_split_labels_every_row_run :
  ∃ out,
    @cell_split small_libraries fresh_small = Some out ∧
    ∃ split,
      column "split" out = Some split ∧
      length split = n_rows out ∧
      Forall (λ v, v ∈ [Str "train"; Str "test"; Str "ood"]) split ∧
      count_of (Str "train") split + count_of (Str "test") split
        + count_of (Str "ood") split = n_rows out.
Proof.
  eexists. split; [vm_compute; reflexivity|].
  apply (@cell_split_labels_every_row small_libraries fresh_small).
  - apply well_formed_map_Forall. by_evaluation.
  - vm_compute. reflexivity.
  - vm_compute. reflexivity.
Defined.

(** The notebook on [lincs_small]: the written rows. *)
Lemma written_rows_valid_run :
  ∃ out,
    @notebook small_libraries reference_small lincs_small = Some out ∧
    ∃ smiles dose,
      column "canonical_smiles" out = Some smiles ∧
      column "pert_dose" out = Some dose ∧
      Forall (λ c, is_str c = true ∧ (c ∉ sentinels) ∧
                   @valid_cell small_libraries c = true ∧
                   min_replicates ≤ count_of c smiles) smiles ∧
      Forall (λ d, d ≠ dose_sentinel) dose.
Proof.
  eexists. split; [vm_compute; reflexivity|].
  apply (@written_rows_valid small_libraries reference_small lincs_small).
  vm_compute. reflexivity.
Defined.

End MoreRuns.
